(** * TCP China congestion control

    A shallow embedding of [tcp_china.c]: the HSTCP AIMD table, the
    per-connection state, the RTT estimator, the congestion-avoidance step
    and the multiplicative decrease, followed by the properties of each. *)

From Stdlib Require Import ZArith List Bool Lia.
Import ListNotations.
Local Open Scope Z_scope.

(** ** Machine integers

    [u32] and [s32] values are integers of [Z]; every C operation on them is
    written with its reduction modulo [2^32]. *)

Definition u32_modulus : Z := 2 ^ 32.

Definition u32 (x : Z) : Z := x mod u32_modulus.

Definition is_u32 (x : Z) : Prop := 0 <= x < u32_modulus.

Definition is_s32 (x : Z) : Prop := - 2 ^ 31 <= x < 2 ^ 31.

(** ** The AIMD table (RFC 3649 appendix B, MD scaled by 256) *)

Record hstcp_aimd_val : Set := mk_aimd { cwnd : Z; md : Z }.

Definition hstcp_aimd_vals : list hstcp_aimd_val := [
  mk_aimd 38 128; mk_aimd 118 112; mk_aimd 221 104; mk_aimd 347 98;
  mk_aimd 495 93; mk_aimd 663 89; mk_aimd 851 86; mk_aimd 1058 83;
  mk_aimd 1284 81; mk_aimd 1529 78; mk_aimd 1793 76; mk_aimd 2076 74;
  mk_aimd 2378 72; mk_aimd 2699 71; mk_aimd 3039 69; mk_aimd 3399 68;
  mk_aimd 3778 66; mk_aimd 4177 65; mk_aimd 4596 64; mk_aimd 5036 62;
  mk_aimd 5497 61; mk_aimd 5979 60; mk_aimd 6483 59; mk_aimd 7009 58;
  mk_aimd 7558 57; mk_aimd 8130 56; mk_aimd 8726 55; mk_aimd 9346 54;
  mk_aimd 9991 53; mk_aimd 10661 52; mk_aimd 11358 52; mk_aimd 12082 51;
  mk_aimd 12834 50; mk_aimd 13614 49; mk_aimd 14424 48; mk_aimd 15265 48;
  mk_aimd 16137 47; mk_aimd 17042 46; mk_aimd 17981 45; mk_aimd 18955 45;
  mk_aimd 19965 44; mk_aimd 21013 43; mk_aimd 22101 43; mk_aimd 23230 42;
  mk_aimd 24402 41; mk_aimd 25618 41; mk_aimd 26881 40; mk_aimd 28193 39;
  mk_aimd 29557 39; mk_aimd 30975 38; mk_aimd 32450 38; mk_aimd 33986 37;
  mk_aimd 35586 36; mk_aimd 37253 36; mk_aimd 38992 35; mk_aimd 40808 35;
  mk_aimd 42707 34; mk_aimd 44694 33; mk_aimd 46776 33; mk_aimd 48961 32;
  mk_aimd 51258 32; mk_aimd 53677 31; mk_aimd 56230 30; mk_aimd 58932 30;
  mk_aimd 61799 29; mk_aimd 64851 28; mk_aimd 68113 28; mk_aimd 71617 27;
  mk_aimd 75401 26; mk_aimd 79517 26; mk_aimd 84035 25; mk_aimd 89053 24
].

Definition HSTCP_AIMD_MAX : Z := Z.of_nat (length hstcp_aimd_vals).

(** [hstcp_aimd_vals[i]].  The C code never reads outside the array as long
    as [i < HSTCP_AIMD_MAX]; the default entry is only there to make the
    lookup total. *)
Definition aimd_at (i : Z) : hstcp_aimd_val :=
  nth (Z.to_nat i) hstcp_aimd_vals (mk_aimd 0 0).

Definition valid_index (i : Z) : Prop := 0 <= i < HSTCP_AIMD_MAX.

(** ** Connection state *)

(** [struct china], the private area of the congestion-control module. *)
Record china : Set := mk_china {
  minrtt : Z;   (* minimum of all RTT measurements seen, usec *)
  artt : Z;     (* smoothed average of all RTT measurements seen, usec *)
  ai : Z        (* index into hstcp_aimd_vals *)
}.

(** The fields of [struct tcp_sock] the module reads and writes. *)
Record tcp_sock : Set := mk_tcp_sock {
  snd_cwnd : Z;
  snd_ssthresh : Z;
  snd_cwnd_cnt : Z;
  snd_cwnd_clamp : Z
}.

(** A socket: [tcp_sk sk] and [inet_csk_ca sk] are the two views the module
    takes of it. *)
Record sock : Set := mk_sock { tcp_sk : tcp_sock; inet_csk_ca : china }.

(** ** Initialisation *)

Definition tcp_china_reset (ca : china) : china :=
  {| minrtt := 0; artt := 0; ai := ai ca |}.

(** [0xffffffff/128] *)
Definition MD_CLAMP : Z := 0xffffffff / 128.

Definition tcp_china_init (sk : sock) : sock :=
  let tp := tcp_sk sk in
  let ca := inet_csk_ca sk in
  let ca := {| minrtt := minrtt ca; artt := artt ca; ai := 0 |} in
  (* min_t(u32, tp->snd_cwnd_clamp, 0xffffffff/128) *)
  let tp := {| snd_cwnd := snd_cwnd tp;
               snd_ssthresh := snd_ssthresh tp;
               snd_cwnd_cnt := snd_cwnd_cnt tp;
               snd_cwnd_clamp := Z.min (u32 (snd_cwnd_clamp tp)) (u32 MD_CLAMP) |} in
  {| tcp_sk := tp; inet_csk_ca := tcp_china_reset ca |}.

(** ** RTT estimator *)

Definition tcp_china_rtt_calc (sk : sock) (num_acked rtt_us : Z) : sock :=
  let ca := inet_csk_ca sk in
  (* rtt = rtt_us + 1, stored in a u32 *)
  let rtt := u32 (rtt_us + 1) in
  let minrtt0 := minrtt ca in
  let artt0 := artt ca in
  let minrtt1 := if (rtt <? minrtt0) || (minrtt0 =? 0) then rtt else minrtt0 in
  let artt1 :=
    if artt0 >? 0
    then u32 (artt0 + u32 (Z.shiftr rtt 3 - Z.shiftr artt0 3))
    else rtt in
  {| tcp_sk := tcp_sk sk;
     inet_csk_ca := {| minrtt := minrtt1; artt := artt1; ai := ai ca |} |}.

(** ** Congestion avoidance *)

(** [while (snd_cwnd > hstcp_aimd_vals[ai].cwnd && ai < HSTCP_AIMD_MAX - 1) ai++;] *)
Fixpoint ai_advance_loop (fuel : nat) (w i : Z) : Z :=
  match fuel with
  | O => i
  | S fuel' =>
      if (w >? cwnd (aimd_at i)) && (i <? HSTCP_AIMD_MAX - 1)
      then ai_advance_loop fuel' w (u32 (i + 1))
      else i
  end.

(** [while (ai && snd_cwnd <= hstcp_aimd_vals[ai-1].cwnd) ai--;] *)
Fixpoint ai_retreat_loop (fuel : nat) (w i : Z) : Z :=
  match fuel with
  | O => i
  | S fuel' =>
      if negb (i =? 0) && (w <=? cwnd (aimd_at (i - 1)))
      then ai_retreat_loop fuel' w (u32 (i - 1))
      else i
  end.

(** Both loops move the index by one per round and stay inside the table, so
    [HSTCP_AIMD_MAX] rounds are enough (see [ai_advance_loop_exit] and
    [ai_retreat_loop_exit]). *)
Definition loop_fuel : nat := Z.to_nat HSTCP_AIMD_MAX.

(** The "update AIMD parameters" block of [tcp_china_cong_avoid]. *)
Definition update_ai (w i : Z) : Z :=
  if w >? cwnd (aimd_at i) then ai_advance_loop loop_fuel w i
  else if negb (i =? 0) && (w <=? cwnd (aimd_at (i - 1)))
       then ai_retreat_loop loop_fuel w i
       else i.

(** The "do additive increase" block, on the already updated index [i]. *)
Definition additive_increase (tp : tcp_sock) (i : Z) : tcp_sock :=
  if snd_cwnd tp <? snd_cwnd_clamp tp then
    let cnt := u32 (snd_cwnd_cnt tp + u32 (i + 1)) in
    if cnt >=? snd_cwnd tp
    then {| snd_cwnd := u32 (snd_cwnd tp + 1);
            snd_ssthresh := snd_ssthresh tp;
            snd_cwnd_cnt := u32 (cnt - snd_cwnd tp);
            snd_cwnd_clamp := snd_cwnd_clamp tp |}
    else {| snd_cwnd := snd_cwnd tp;
            snd_ssthresh := snd_ssthresh tp;
            snd_cwnd_cnt := cnt;
            snd_cwnd_clamp := snd_cwnd_clamp tp |}
  else tp.

Section CongAvoid.

(** The two helpers of the TCP stack that [tcp_china_cong_avoid] calls;
    they are not part of the module.  Before Linux 3.16 the limit test also
    takes [in_flight]; in both variants only its result is used, and [ack]
    is not used at all. *)
Variable tcp_is_cwnd_limited : sock -> bool.
Variable tcp_slow_start : tcp_sock -> Z -> tcp_sock.

Definition tcp_china_cong_avoid (sk : sock) (ack acked : Z) : sock :=
  let tp := tcp_sk sk in
  let ca := inet_csk_ca sk in
  if negb (tcp_is_cwnd_limited sk) then sk
  else if snd_cwnd tp <=? snd_ssthresh tp then
    (* standard TCP slow start *)
    {| tcp_sk := tcp_slow_start tp acked; inet_csk_ca := ca |}
  else
    let i := update_ai (snd_cwnd tp) (ai ca) in
    {| tcp_sk := additive_increase tp i;
       inet_csk_ca := {| minrtt := minrtt ca; artt := artt ca; ai := i |} |}.

(** A run of [tcp_china_cong_avoid] calls, one per [(ack, acked)] pair. *)
Definition cong_avoid_run (sk : sock) (calls : list (Z * Z)) : sock :=
  fold_left (fun s c => tcp_china_cong_avoid s (fst c) (snd c)) calls sk.

End CongAvoid.

(** Modelled from the spec: [tcp_slow_start] belongs to the TCP stack; the
    window grows by the number of newly acknowledged segments, bounded so
    that it never exceeds the clamp. *)
Definition tcp_slow_start_model (tp : tcp_sock) (acked : Z) : tcp_sock :=
  {| snd_cwnd := Z.min (snd_cwnd tp + acked) (snd_cwnd_clamp tp);
     snd_ssthresh := snd_ssthresh tp;
     snd_cwnd_cnt := snd_cwnd_cnt tp;
     snd_cwnd_clamp := snd_cwnd_clamp tp |}.

(** ** Multiplicative decrease *)

Definition tcp_china_ssthresh (sk : sock) : Z :=
  let tp := tcp_sk sk in
  let ca := inet_csk_ca sk in
  Z.max (u32 (snd_cwnd tp -
              Z.shiftr (u32 (snd_cwnd tp * md (aimd_at (ai ca)))) 8))
        2.

(** The boundary relation between a window [w] and a table index [i]:
    [hstcp_aimd_vals[i-1].cwnd < w <= hstcp_aimd_vals[i].cwnd], with no lower
    bound at index 0 and the last index taking every larger window. *)
Definition index_relation (w i : Z) : Prop :=
  (i = 0 \/ cwnd (aimd_at (i - 1)) < w) /\
  (w <= cwnd (aimd_at i) \/
   (i = HSTCP_AIMD_MAX - 1 /\ cwnd (aimd_at i) < w)).

(** Boolean form of [index_relation], for evaluation. *)
Definition index_relationb (w i : Z) : bool :=
  ((i =? 0) || (cwnd (aimd_at (i - 1)) <? w)) &&
  ((w <=? cwnd (aimd_at i)) ||
   ((i =? HSTCP_AIMD_MAX - 1) && (cwnd (aimd_at i) <? w))).

(** [n] calls of [tcp_china_rtt_calc] with the same sample. *)
Definition rtt_calc_repeat (n : nat) (sk : sock) (num_acked rtt_us : Z) : sock :=
  Nat.iter n (fun s => tcp_china_rtt_calc s num_acked rtt_us) sk.

(** Both RTT fields are 0, the value [tcp_china_reset] leaves: no sample
    has been recorded. *)
Definition ca_unset (sk : sock) : Prop :=
  minrtt (inet_csk_ca sk) = 0 /\ artt (inet_csk_ca sk) = 0.

(** ** Sample states

    Concrete sockets the statements below are evaluated on. *)

(** An unset estimator on a connection in slow start. *)
Definition sk_unset : sock :=
  {| tcp_sk := {| snd_cwnd := 10; snd_ssthresh := 0x7fffffff;
                  snd_cwnd_cnt := 0; snd_cwnd_clamp := 1000000 |};
     inet_csk_ca := {| minrtt := 0; artt := 0; ai := 0 |} |}.

(** A socket before [tcp_china_init], with the largest clamp. *)
Definition sk_fresh : sock :=
  {| tcp_sk := {| snd_cwnd := 10; snd_ssthresh := 0x7fffffff;
                  snd_cwnd_cnt := 0; snd_cwnd_clamp := 0xffffffff |};
     inet_csk_ca := {| minrtt := 7; artt := 9; ai := 5 |} |}.

(** Window 38, the first threshold of the table, in fast growth. *)
Definition sk_38 : sock :=
  {| tcp_sk := {| snd_cwnd := 38; snd_ssthresh := 10;
                  snd_cwnd_cnt := 0; snd_cwnd_clamp := 1000000 |};
     inet_csk_ca := {| minrtt := 0; artt := 0; ai := 0 |} |}.

(** The same, one step of the counter away from the window. *)
Definition sk_38_full : sock :=
  {| tcp_sk := {| snd_cwnd := 38; snd_ssthresh := 10;
                  snd_cwnd_cnt := 37; snd_cwnd_clamp := 1000000 |};
     inet_csk_ca := {| minrtt := 0; artt := 0; ai := 0 |} |}.

(** Window 10000 with the index of its bracket, 29. *)
Definition sk_10000 : sock :=
  {| tcp_sk := {| snd_cwnd := 10000; snd_ssthresh := 5000;
                  snd_cwnd_cnt := 0; snd_cwnd_clamp := 1000000 |};
     inet_csk_ca := {| minrtt := 0; artt := 0; ai := 29 |} |}.

(** Window 10000 with the index one bracket behind, 28. *)
Definition sk_lagging : sock :=
  {| tcp_sk := {| snd_cwnd := 10000; snd_ssthresh := 5000;
                  snd_cwnd_cnt := 0; snd_cwnd_clamp := 1000000 |};
     inet_csk_ca := {| minrtt := 0; artt := 0; ai := 28 |} |}.

(** ** Further notions *)

(** Every field of the socket is a 32-bit value. *)
Definition sock_u32 (sk : sock) : Prop :=
  is_u32 (snd_cwnd (tcp_sk sk)) /\ is_u32 (snd_ssthresh (tcp_sk sk)) /\
  is_u32 (snd_cwnd_cnt (tcp_sk sk)) /\ is_u32 (snd_cwnd_clamp (tcp_sk sk)) /\
  is_u32 (minrtt (inet_csk_ca sk)) /\ is_u32 (artt (inet_csk_ca sk)) /\
  is_u32 (ai (inet_csk_ca sk)).

(** A run of [tcp_china_rtt_calc] calls, one per [(num_acked, rtt_us)]
    pair. *)
Definition rtt_calc_run (sk : sock) (samples : list (Z * Z)) : sock :=
  fold_left (fun s c => tcp_china_rtt_calc s (fst c) (snd c)) samples sk.

(** A raw sample the caller can pass that does not turn into the value 0. *)
Definition usable_sample (rtt_us : Z) : Prop :=
  is_s32 rtt_us /\ rtt_us <> -1.

(** An average of 50 over a minimum of 40, in fast growth. *)
Definition sk_busy : sock :=
  {| tcp_sk := {| snd_cwnd := 120; snd_ssthresh := 60;
                  snd_cwnd_cnt := 3; snd_cwnd_clamp := 1000000 |};
     inet_csk_ca := {| minrtt := 40; artt := 50; ai := 2 |} |}.

(** The smoothing step of [tcp_china_rtt_calc] on integers, for a sample
    value [r] and an average [a] that both fit 32 bits (see
    [rtt_calc_artt]). *)
Definition artt_step (r a : Z) : Z :=
  if a =? 0 then r else a + r / 8 - a / 8.

(** The fields of [struct tcp_sock] are 32-bit values. *)
Definition tcp_sock_u32 (tp : tcp_sock) : Prop :=
  is_u32 (snd_cwnd tp) /\ is_u32 (snd_ssthresh tp) /\
  is_u32 (snd_cwnd_cnt tp) /\ is_u32 (snd_cwnd_clamp tp).

(** The first window above [0xffffffff/128], at index 0. *)
Definition sk_over : sock :=
  {| tcp_sk := {| snd_cwnd := 33554432; snd_ssthresh := 10;
                  snd_cwnd_cnt := 0; snd_cwnd_clamp := 0xffffffff |};
     inet_csk_ca := {| minrtt := 0; artt := 0; ai := 0 |} |}.

(** * Properties *)

(** ** Machine arithmetic *)

Lemma u32_modulus_eq : u32_modulus = 4294967296.
Proof. reflexivity. Qed.

Lemma u32_small x : is_u32 x -> u32 x = x.
Proof. intros H. apply Z.mod_small. exact H. Qed.

Lemma u32_range x : is_u32 (u32 x).
Proof. apply Z.mod_pos_bound. reflexivity. Qed.

Lemma u32_add_idemp_r a b : u32 (a + u32 b) = u32 (a + b).
Proof. apply Zplus_mod_idemp_r. Qed.

Lemma MD_CLAMP_eq : MD_CLAMP = 33554431.
Proof. reflexivity. Qed.

(** ** The table *)

Lemma HSTCP_AIMD_MAX_eq : HSTCP_AIMD_MAX = 72.
Proof. reflexivity. Qed.

(** A property of table positions that evaluates to [true] on each of them
    holds of every valid index. *)
Lemma valid_index_forallb (p : Z -> bool) :
  forallb p (map Z.of_nat (seq 0 loop_fuel)) = true ->
  forall i, valid_index i -> p i = true.
Proof.
  intros Hall i [Hlo Hhi].
  rewrite forallb_forall in Hall. apply Hall.
  apply in_map_iff. exists (Z.to_nat i). split.
  - apply Z2Nat.id. exact Hlo.
  - apply in_seq. unfold loop_fuel. split; [apply Nat.le_0_l|].
    apply Z2Nat.inj_lt; lia.
Qed.

Lemma aimd_at_in i : valid_index i -> In (aimd_at i) hstcp_aimd_vals.
Proof.
  intros [Hlo Hhi]. unfold aimd_at. apply nth_In.
  unfold HSTCP_AIMD_MAX in Hhi. lia.
Qed.

Lemma in_aimd_at e : In e hstcp_aimd_vals -> exists i, valid_index i /\ aimd_at i = e.
Proof.
  intros Hin. destruct (In_nth _ _ (mk_aimd 0 0) Hin) as [n [Hn Hnth]].
  exists (Z.of_nat n). split.
  - unfold valid_index, HSTCP_AIMD_MAX. lia.
  - unfold aimd_at. rewrite Nat2Z.id. exact Hnth.
Qed.

Lemma aimd_cwnd_increasing i :
  valid_index i -> valid_index (i + 1) ->
  cwnd (aimd_at i) < cwnd (aimd_at (i + 1)).
Proof.
  intros Hi Hi1.
  pose proof (valid_index_forallb
    (fun j => negb (j + 1 <? HSTCP_AIMD_MAX) ||
              (cwnd (aimd_at j) <? cwnd (aimd_at (j + 1))))
    eq_refl i Hi) as H.
  cbv beta in H. destruct Hi1 as [_ Hhi].
  apply Z.ltb_lt in Hhi. rewrite Hhi in H. apply Z.ltb_lt. exact H.
Qed.

Lemma aimd_md_bound i : valid_index i -> 0 <= md (aimd_at i) <= 128.
Proof.
  intros Hi.
  pose proof (valid_index_forallb
    (fun j => (0 <=? md (aimd_at j)) && (md (aimd_at j) <=? 128))
    eq_refl i Hi) as H.
  cbv beta in H. apply andb_true_iff in H. destruct H as [H1 H2].
  apply Z.leb_le in H1. apply Z.leb_le in H2. lia.
Qed.

Lemma index_relationb_spec w i : index_relationb w i = true <-> index_relation w i.
Proof.
  unfold index_relationb, index_relation.
  rewrite andb_true_iff, !orb_true_iff, andb_true_iff.
  rewrite !Z.eqb_eq, !Z.ltb_lt, Z.leb_le. reflexivity.
Qed.

(** ** The index loops *)

Lemma ai_advance_loop_spec fuel w :
  forall i,
    valid_index i ->
    (Z.to_nat (HSTCP_AIMD_MAX - 1 - i) <= fuel)%nat ->
    i = 0 \/ cwnd (aimd_at (i - 1)) < w ->
    valid_index (ai_advance_loop fuel w i) /\
    index_relation w (ai_advance_loop fuel w i).
Proof.
  unfold index_relation, valid_index. rewrite HSTCP_AIMD_MAX_eq.
  induction fuel as [|fuel IH]; intros i Hv Hfuel Hlow; cbn [ai_advance_loop].
  - split; [exact Hv|]. split; [exact Hlow|].
    destruct (Z_le_gt_dec w (cwnd (aimd_at i))); [left; assumption|right; lia].
  - rewrite HSTCP_AIMD_MAX_eq.
    destruct ((w >? cwnd (aimd_at i)) && (i <? 72 - 1)) eqn:Hc.
    + apply andb_true_iff in Hc. destruct Hc as [Hgt Hlt].
      rewrite Z.gtb_ltb in Hgt. apply Z.ltb_lt in Hgt. apply Z.ltb_lt in Hlt.
      rewrite (u32_small (i + 1)) by (unfold is_u32; rewrite u32_modulus_eq; lia).
      apply IH; [lia|lia|].
      right. replace (i + 1 - 1) with i by lia. exact Hgt.
    + split; [exact Hv|]. split; [exact Hlow|].
      apply andb_false_iff in Hc. destruct Hc as [Hc|Hc].
      * left. rewrite Z.gtb_ltb in Hc. apply Z.ltb_ge in Hc. exact Hc.
      * apply Z.ltb_ge in Hc.
        destruct (Z_le_gt_dec w (cwnd (aimd_at i))); [left; assumption|right; lia].
Qed.

Lemma ai_retreat_loop_spec fuel w :
  forall i,
    valid_index i ->
    (Z.to_nat i <= fuel)%nat ->
    w <= cwnd (aimd_at i) ->
    valid_index (ai_retreat_loop fuel w i) /\
    index_relation w (ai_retreat_loop fuel w i).
Proof.
  unfold index_relation, valid_index. rewrite HSTCP_AIMD_MAX_eq.
  induction fuel as [|fuel IH]; intros i Hv Hfuel Hup; cbn [ai_retreat_loop].
  - split; [exact Hv|]. split; [left; lia|left; exact Hup].
  - destruct (negb (i =? 0) && (w <=? cwnd (aimd_at (i - 1)))) eqn:Hc.
    + apply andb_true_iff in Hc. destruct Hc as [Hnz Hle].
      apply negb_true_iff in Hnz. apply Z.eqb_neq in Hnz. apply Z.leb_le in Hle.
      rewrite (u32_small (i - 1)) by (unfold is_u32; rewrite u32_modulus_eq; lia).
      apply IH; [lia|lia|exact Hle].
    + split; [exact Hv|]. split; [|left; exact Hup].
      apply andb_false_iff in Hc. destruct Hc as [Hc|Hc].
      * left. apply negb_false_iff in Hc. apply Z.eqb_eq in Hc. exact Hc.
      * right. apply Z.leb_gt in Hc. exact Hc.
Qed.

(** The loops leave through their exit condition: [loop_fuel] rounds never
    run out on a valid index. *)
Lemma ai_advance_loop_exit w i :
  valid_index i ->
  let r := ai_advance_loop loop_fuel w i in
  (w >? cwnd (aimd_at r)) && (r <? HSTCP_AIMD_MAX - 1) = false.
Proof.
  intros Hv r. subst r.
  assert (Hk : forall fuel j, valid_index j ->
             (Z.to_nat (HSTCP_AIMD_MAX - 1 - j) <= fuel)%nat ->
             (w >? cwnd (aimd_at (ai_advance_loop fuel w j))) &&
             (ai_advance_loop fuel w j <? HSTCP_AIMD_MAX - 1) = false).
  { unfold valid_index. rewrite HSTCP_AIMD_MAX_eq.
    induction fuel as [|fuel IH]; intros j Hj Hf; cbn [ai_advance_loop].
    - apply andb_false_iff. right. apply Z.ltb_ge. lia.
    - rewrite HSTCP_AIMD_MAX_eq.
      destruct ((w >? cwnd (aimd_at j)) && (j <? 72 - 1)) eqn:Hc; [|exact Hc].
      apply andb_true_iff in Hc. destruct Hc as [_ Hlt]. apply Z.ltb_lt in Hlt.
      rewrite (u32_small (j + 1)) by (unfold is_u32; rewrite u32_modulus_eq; lia).
      apply IH; lia. }
  apply Hk; [exact Hv|].
  unfold valid_index in Hv. unfold loop_fuel. lia.
Qed.

Lemma ai_retreat_loop_exit w i :
  valid_index i ->
  let r := ai_retreat_loop loop_fuel w i in
  negb (r =? 0) && (w <=? cwnd (aimd_at (r - 1))) = false.
Proof.
  intros Hv r. subst r.
  assert (Hk : forall fuel j, valid_index j -> (Z.to_nat j <= fuel)%nat ->
             negb (ai_retreat_loop fuel w j =? 0) &&
             (w <=? cwnd (aimd_at (ai_retreat_loop fuel w j - 1))) = false).
  { unfold valid_index. rewrite HSTCP_AIMD_MAX_eq.
    induction fuel as [|fuel IH]; intros j Hj Hf; cbn [ai_retreat_loop].
    - apply andb_false_iff. left. apply negb_false_iff. apply Z.eqb_eq. lia.
    - destruct (negb (j =? 0) && (w <=? cwnd (aimd_at (j - 1)))) eqn:Hc; [|exact Hc].
      apply andb_true_iff in Hc. destruct Hc as [Hnz _].
      apply negb_true_iff in Hnz. apply Z.eqb_neq in Hnz.
      rewrite (u32_small (j - 1)) by (unfold is_u32; rewrite u32_modulus_eq; lia).
      apply IH; lia. }
  apply Hk; [exact Hv|].
  unfold valid_index in Hv. unfold loop_fuel. lia.
Qed.

Lemma update_ai_spec w i :
  valid_index i ->
  valid_index (update_ai w i) /\ index_relation w (update_ai w i).
Proof.
  intros Hv. unfold update_ai.
  destruct (w >? cwnd (aimd_at i)) eqn:Hgt.
  - rewrite Z.gtb_ltb in Hgt. apply Z.ltb_lt in Hgt.
    apply ai_advance_loop_spec; [exact Hv| |].
    + unfold valid_index in Hv. unfold loop_fuel. lia.
    + destruct (Z.eq_dec i 0) as [Hz|Hnz]; [left; exact Hz|right].
      assert (Hinc : cwnd (aimd_at (i - 1)) < cwnd (aimd_at (i - 1 + 1))).
      { apply aimd_cwnd_increasing; unfold valid_index in *; lia. }
      replace (i - 1 + 1) with i in Hinc by lia. lia.
  - rewrite Z.gtb_ltb in Hgt. apply Z.ltb_ge in Hgt.
    destruct (negb (i =? 0) && (w <=? cwnd (aimd_at (i - 1)))) eqn:Hc.
    + apply ai_retreat_loop_spec; [exact Hv| |exact Hgt].
      unfold valid_index in Hv. unfold loop_fuel. lia.
    + split; [exact Hv|]. split; [|left; exact Hgt].
      apply andb_false_iff in Hc. destruct Hc as [Hc|Hc].
      * left. apply negb_false_iff in Hc. apply Z.eqb_eq in Hc. exact Hc.
      * right. apply Z.leb_gt in Hc. exact Hc.
Qed.

(** ** Multiplicative decrease *)

(** The 32-bit product, shifted right by 8, never exceeds the window: the
    subtraction in [tcp_china_ssthresh] does not wrap. *)
Lemma md_share_le_window w m :
  is_u32 w -> 0 <= m <= 128 ->
  0 <= Z.shiftr (u32 (w * m)) 8 <= w.
Proof.
  unfold is_u32, u32. rewrite u32_modulus_eq. intros Hw Hm.
  rewrite Z.shiftr_div_pow2 by lia. change (2 ^ 8) with 256.
  assert (Hp : 0 <= (w * m) mod 4294967296 <= w * m).
  { split; [apply Z.mod_pos_bound; lia|apply Z.mod_le; nia]. }
  assert (Hq : (w * m) mod 4294967296 <= w * 128) by nia.
  split; [apply Z.div_pos; lia|].
  apply Z.div_le_upper_bound; lia.
Qed.

Lemma md_product_fits w m :
  0 <= w <= MD_CLAMP -> 0 <= m <= 128 -> is_u32 (w * m).
Proof.
  rewrite MD_CLAMP_eq. unfold is_u32. rewrite u32_modulus_eq. intros Hw Hm. nia.
Qed.

(** C1: for every connection state whose window is a 32-bit value [w] and
    whose stored table index [i] is valid, [tcp_china_ssthresh] returns
    exactly [max(w - ((w * hstcp_aimd_vals[i].md) >> 8), 2)], where the
    product is the 32-bit one of the code (first part) and the plain integer
    product for every window within the clamp set by [tcp_china_init]
    (second part).  The index is the stored [ai], whatever its relation to
    [w]: nothing is re-derived from the window.  The result is never below
    2 (third part). *)
Theorem tcp_china_ssthresh_value :
  forall sk : sock,
    let w := snd_cwnd (tcp_sk sk) in
    let i := ai (inet_csk_ca sk) in
    is_u32 w -> valid_index i ->
    tcp_china_ssthresh sk
      = Z.max (w - Z.shiftr (u32 (w * md (aimd_at i))) 8) 2 /\
    (w <= MD_CLAMP ->
     tcp_china_ssthresh sk = Z.max (w - Z.shiftr (w * md (aimd_at i)) 8) 2) /\
    2 <= tcp_china_ssthresh sk < u32_modulus.
Proof.
  intros sk w i Hw Hi.
  pose proof (aimd_md_bound i Hi) as Hm.
  pose proof (md_share_le_window w _ Hw Hm) as Hq.
  assert (Heq : tcp_china_ssthresh sk
                = Z.max (w - Z.shiftr (u32 (w * md (aimd_at i))) 8) 2).
  { unfold tcp_china_ssthresh. fold w. fold i.
    rewrite u32_small; [reflexivity|]. unfold is_u32 in *. lia. }
  split; [exact Heq|]. split.
  - intros Hclamp. rewrite Heq.
    rewrite (u32_small (w * md (aimd_at i))); [reflexivity|].
    apply md_product_fits; [unfold is_u32 in Hw; lia|exact Hm].
  - rewrite Heq. unfold is_u32 in Hw. rewrite u32_modulus_eq in *. lia.
Qed.

Lemma tcp_china_ssthresh_value_witness :
  tcp_china_ssthresh sk_lagging = 7930 /\ 2 <= tcp_china_ssthresh sk_lagging.
Proof.
  assert (Hw : is_u32 (snd_cwnd (tcp_sk sk_lagging))) by (vm_compute; split; [discriminate|reflexivity]).
  assert (Hi : valid_index (ai (inet_csk_ca sk_lagging))) by (vm_compute; split; [discriminate|reflexivity]).
  destruct (tcp_china_ssthresh_value sk_lagging Hw Hi) as [_ [Hplain Hfloor]].
  split.
  - rewrite Hplain; [reflexivity|vm_compute; discriminate].
  - apply Hfloor.
Defined.

(** The decrease follows the stored index even when it lags the window:
    index 28 (windows up to 9991) does not bracket 10000, and with it the
    decrease uses the factor 53 and returns 7930, where index 29, whose
    bracket holds 10000, gives 7969. *)
Example ssthresh_follows_stored_index :
  ~ index_relation 10000 28 /\
  tcp_china_ssthresh sk_lagging = 7930 /\
  tcp_china_ssthresh sk_10000 = 7969.
Proof.
  split; [|split; reflexivity].
  intros H. apply index_relationb_spec in H. discriminate H.
Qed.

(** C8 (as stated, refuted): at window 10000 the entry whose bracket holds
    the window is index 29, its decrease factor is 52 and not 53, and the
    decrease returns 7969, not [10000 - (10000*53 >> 8) = 7930]. *)
Lemma ssthresh_10000_counterexample :
  let sk := {| tcp_sk := {| snd_cwnd := 10000; snd_ssthresh := 5000;
                            snd_cwnd_cnt := 0; snd_cwnd_clamp := 1000000 |};
               inet_csk_ca := {| minrtt := 0; artt := 0; ai := 29 |} |} in
  index_relation (snd_cwnd (tcp_sk sk)) (ai (inet_csk_ca sk)) /\
  md (aimd_at (ai (inet_csk_ca sk))) <> 53 /\
  tcp_china_ssthresh sk <> 10000 - Z.shiftr (10000 * 53) 8.
Proof.
  cbv zeta. split; [|split].
  - apply index_relationb_spec. reflexivity.
  - vm_compute. discriminate.
  - vm_compute. discriminate.
Qed.

Lemma index_relation_10000 i :
  valid_index i -> index_relation 10000 i -> i = 29.
Proof.
  intros Hv Hrel. apply index_relationb_spec in Hrel.
  pose proof (valid_index_forallb
    (fun j => negb (index_relationb 10000 j) || (j =? 29)) eq_refl i Hv) as H.
  cbv beta in H. rewrite Hrel in H. apply Z.eqb_eq. exact H.
Qed.

(** C8 (amended): with window 10000 and the table index at the entry whose
    bracket holds 10000, that entry is index 29 (9991 < 10000 <= 10661), its
    decrease factor is 52, and the decrease returns
    [10000 - (10000*52 >> 8) = 7969]. *)
Theorem ssthresh_10000 :
  forall sk : sock,
    snd_cwnd (tcp_sk sk) = 10000 ->
    valid_index (ai (inet_csk_ca sk)) ->
    index_relation 10000 (ai (inet_csk_ca sk)) ->
    ai (inet_csk_ca sk) = 29 /\
    md (aimd_at (ai (inet_csk_ca sk))) = 52 /\
    tcp_china_ssthresh sk = 10000 - Z.shiftr (10000 * 52) 8 /\
    tcp_china_ssthresh sk = 7969.
Proof.
  intros sk Hw Hv Hrel.
  pose proof (index_relation_10000 _ Hv Hrel) as Hi.
  unfold tcp_china_ssthresh. rewrite Hw, Hi.
  repeat split; reflexivity.
Qed.

Lemma ssthresh_10000_witness : tcp_china_ssthresh sk_10000 = 7969.
Proof.
  apply (ssthresh_10000 sk_10000).
  - reflexivity.
  - vm_compute. split; [discriminate|reflexivity].
  - apply index_relationb_spec. reflexivity.
Defined.

(** ** Table ordering *)

(** C9 (as stated, refuted): the table does not have 73 entries. *)
Lemma table_length_counterexample :
  ~ ((forall i, valid_index i -> valid_index (i + 1) ->
        cwnd (aimd_at i) < cwnd (aimd_at (i + 1))) /\
     length hstcp_aimd_vals = 73%nat).
Proof.
  intros [_ Hlen]. vm_compute in Hlen. discriminate Hlen.
Qed.

(** C9 (amended): the thresholds are strictly increasing across adjacent
    entries, and the table has exactly 72 entries. *)
Theorem table_ordering :
  (forall i, valid_index i -> valid_index (i + 1) ->
     cwnd (aimd_at i) < cwnd (aimd_at (i + 1))) /\
  length hstcp_aimd_vals = 72%nat.
Proof.
  split; [exact aimd_cwnd_increasing|reflexivity].
Qed.

Lemma table_ordering_witness : cwnd (aimd_at 0) < cwnd (aimd_at (0 + 1)).
Proof.
  apply (proj1 table_ordering 0).
  - vm_compute. split; [discriminate|reflexivity].
  - vm_compute. split; [discriminate|reflexivity].
Defined.

(** ** Initialisation *)

(** C7: [tcp_china_init] sets the table index to 0, clears both RTT fields
    and stores [min(clamp, 0xffffffff/128)] as the clamp, leaving window,
    threshold and counter alone; so for every window up to the stored clamp
    and every table entry the product [window * md] fits 32 bits. *)
Theorem tcp_china_init_spec :
  forall sk : sock,
    is_u32 (snd_cwnd_clamp (tcp_sk sk)) ->
    let sk' := tcp_china_init sk in
    ai (inet_csk_ca sk') = 0 /\
    minrtt (inet_csk_ca sk') = 0 /\
    artt (inet_csk_ca sk') = 0 /\
    snd_cwnd_clamp (tcp_sk sk')
      = Z.min (snd_cwnd_clamp (tcp_sk sk)) (0xffffffff / 128) /\
    snd_cwnd_clamp (tcp_sk sk') <= 0xffffffff / 128 /\
    snd_cwnd (tcp_sk sk') = snd_cwnd (tcp_sk sk) /\
    snd_ssthresh (tcp_sk sk') = snd_ssthresh (tcp_sk sk) /\
    snd_cwnd_cnt (tcp_sk sk') = snd_cwnd_cnt (tcp_sk sk) /\
    (forall w e,
       0 <= w <= snd_cwnd_clamp (tcp_sk sk') ->
       In e hstcp_aimd_vals ->
       md e <= 128 /\ 0 <= w * md e <= 0xffffffff).
Proof.
  intros sk Hclamp sk'.
  assert (Hst : snd_cwnd_clamp (tcp_sk sk')
                = Z.min (snd_cwnd_clamp (tcp_sk sk)) (0xffffffff / 128)).
  { subst sk'. unfold tcp_china_init. cbn [tcp_sk snd_cwnd_clamp].
    rewrite (u32_small _ Hclamp). reflexivity. }
  repeat (split; [reflexivity || exact Hst|]).
  split; [rewrite Hst; apply Z.le_min_r|].
  repeat (split; [reflexivity|]).
  intros w e Hw Hin.
  destruct (in_aimd_at e Hin) as [i [Hi <-]].
  pose proof (aimd_md_bound i Hi) as Hm.
  assert (Hw' : 0 <= w <= MD_CLAMP).
  { rewrite Hst in Hw. unfold MD_CLAMP. lia. }
  pose proof (md_product_fits w _ Hw' Hm) as Hfit.
  unfold is_u32 in Hfit. rewrite u32_modulus_eq in Hfit.
  change (0xffffffff) with 4294967295. lia.
Qed.

Lemma tcp_china_init_spec_witness :
  ai (inet_csk_ca (tcp_china_init sk_fresh)) = 0 /\
  snd_cwnd_clamp (tcp_sk (tcp_china_init sk_fresh)) = 33554431 /\
  0 <= 33554431 * md (aimd_at 0) <= 0xffffffff.
Proof.
  assert (Hc : is_u32 (snd_cwnd_clamp (tcp_sk sk_fresh)))
    by (vm_compute; split; [discriminate|reflexivity]).
  destruct (tcp_china_init_spec sk_fresh Hc)
    as [Hai [_ [_ [Hclamp [_ [_ [_ [_ Hprod]]]]]]]].
  split; [exact Hai|]. split; [rewrite Hclamp; reflexivity|].
  apply (Hprod 33554431 (aimd_at 0)).
  - rewrite Hclamp. vm_compute. split; discriminate.
  - apply aimd_at_in. vm_compute. split; [discriminate|reflexivity].
Defined.

(** ** Congestion avoidance *)

Section CongAvoidFacts.

Variable tcp_is_cwnd_limited : sock -> bool.
Variable tcp_slow_start : tcp_sock -> Z -> tcp_sock.

(** The index stays inside the table across every call. *)
Lemma cong_avoid_valid_index sk ack acked :
  valid_index (ai (inet_csk_ca sk)) ->
  valid_index (ai (inet_csk_ca
    (tcp_china_cong_avoid tcp_is_cwnd_limited tcp_slow_start sk ack acked))).
Proof.
  intros Hv. unfold tcp_china_cong_avoid.
  destruct (negb (tcp_is_cwnd_limited sk)); [exact Hv|].
  destruct (snd_cwnd (tcp_sk sk) <=? snd_ssthresh (tcp_sk sk)); [exact Hv|].
  cbn [inet_csk_ca ai]. apply update_ai_spec. exact Hv.
Qed.

Lemma cong_avoid_run_valid_index calls :
  forall sk,
    valid_index (ai (inet_csk_ca sk)) ->
    valid_index (ai (inet_csk_ca
      (cong_avoid_run tcp_is_cwnd_limited tcp_slow_start sk calls))).
Proof.
  unfold cong_avoid_run.
  induction calls as [|c calls IH]; intros sk Hv; cbn [fold_left].
  - exact Hv.
  - apply IH. apply cong_avoid_valid_index. exact Hv.
Qed.

End CongAvoidFacts.

Lemma tcp_china_init_valid_index sk :
  valid_index (ai (inet_csk_ca (tcp_china_init sk))).
Proof. cbn. unfold valid_index. rewrite HSTCP_AIMD_MAX_eq. lia. Qed.

(** C3: when the connection is not limited by its window,
    [tcp_china_cong_avoid] returns the socket as it was: window, slow-start
    threshold, counter, clamp, table index and both RTT fields are
    unchanged, whatever the prior state and the acknowledged count. *)
Theorem cong_avoid_not_limited_noop :
  forall (tcp_is_cwnd_limited : sock -> bool)
         (tcp_slow_start : tcp_sock -> Z -> tcp_sock)
         (sk : sock) (ack acked : Z),
    tcp_is_cwnd_limited sk = false ->
    tcp_china_cong_avoid tcp_is_cwnd_limited tcp_slow_start sk ack acked = sk.
Proof.
  intros limited slow sk ack acked Hlim.
  unfold tcp_china_cong_avoid. rewrite Hlim. reflexivity.
Qed.

Lemma cong_avoid_not_limited_noop_witness :
  tcp_china_cong_avoid (fun _ => false) tcp_slow_start_model sk_10000 0 5
  = sk_10000.
Proof.
  apply (cong_avoid_not_limited_noop (fun _ => false) tcp_slow_start_model
           sk_10000 0 5).
  reflexivity.
Defined.

(** C2 (as stated, refuted): from an initialised state with window 38 in
    fast growth, 38 window-limited calls bring the window to 39 while the
    index is still 0, although 39 is above the first threshold and the
    index is not at the end of the table. *)
Lemma index_invariant_counterexample :
  let sk := cong_avoid_run (fun _ => true) tcp_slow_start_model
              (tcp_china_init sk_38) (repeat (0, 1) 38) in
  snd_cwnd (tcp_sk sk) = 39 /\
  ai (inet_csk_ca sk) = 0 /\
  ~ index_relation (snd_cwnd (tcp_sk sk)) (ai (inet_csk_ca sk)).
Proof.
  cbv zeta. split; [reflexivity|]. split; [reflexivity|].
  intros H. apply index_relationb_spec in H. vm_compute in H. discriminate H.
Qed.

Lemma additive_increase_window tp i :
  is_u32 (snd_cwnd tp) -> is_u32 (snd_cwnd_clamp tp) ->
  snd_cwnd (additive_increase tp i) = snd_cwnd tp \/
  snd_cwnd (additive_increase tp i) = snd_cwnd tp + 1.
Proof.
  intros Hw Hc. unfold additive_increase.
  destruct (snd_cwnd tp <? snd_cwnd_clamp tp) eqn:Hlt; [|left; reflexivity].
  apply Z.ltb_lt in Hlt.
  destruct (u32 (snd_cwnd_cnt tp + u32 (i + 1)) >=? snd_cwnd tp);
    cbn [snd_cwnd]; [right|left; reflexivity].
  apply u32_small. unfold is_u32 in *. lia.
Qed.

(** C2 (amended): after any sequence of calls from an initialised state the
    index is a valid table position, and so it is after one more call; when
    that call is window-limited and in fast growth, the index it leaves
    satisfies the boundary relation for the window the call started with,
    and the window it leaves is that window or one segment more; a call
    that is not window-limited or is in slow start leaves the index as it
    was. *)
Theorem cong_avoid_index_relation :
  forall (tcp_is_cwnd_limited : sock -> bool)
         (tcp_slow_start : tcp_sock -> Z -> tcp_sock)
         (sk0 : sock) (calls : list (Z * Z)) (ack acked : Z),
    let sk := cong_avoid_run tcp_is_cwnd_limited tcp_slow_start
                (tcp_china_init sk0) calls in
    let sk' := tcp_china_cong_avoid tcp_is_cwnd_limited tcp_slow_start
                 sk ack acked in
    valid_index (ai (inet_csk_ca sk)) /\
    valid_index (ai (inet_csk_ca sk')) /\
    (tcp_is_cwnd_limited sk = true ->
     snd_ssthresh (tcp_sk sk) < snd_cwnd (tcp_sk sk) ->
     index_relation (snd_cwnd (tcp_sk sk)) (ai (inet_csk_ca sk')) /\
     (is_u32 (snd_cwnd (tcp_sk sk)) -> is_u32 (snd_cwnd_clamp (tcp_sk sk)) ->
      snd_cwnd (tcp_sk sk') = snd_cwnd (tcp_sk sk) \/
      snd_cwnd (tcp_sk sk') = snd_cwnd (tcp_sk sk) + 1)) /\
    (tcp_is_cwnd_limited sk = false \/
     snd_cwnd (tcp_sk sk) <= snd_ssthresh (tcp_sk sk) ->
     ai (inet_csk_ca sk') = ai (inet_csk_ca sk)).
Proof.
  intros limited slow sk0 calls ack acked sk sk'.
  assert (Hv : valid_index (ai (inet_csk_ca sk))).
  { apply cong_avoid_run_valid_index. apply tcp_china_init_valid_index. }
  split; [exact Hv|]. split; [apply cong_avoid_valid_index; exact Hv|].
  subst sk'. unfold tcp_china_cong_avoid. split.
  - intros Hlim Hfast. rewrite Hlim. cbn [negb].
    apply Z.leb_gt in Hfast. rewrite Hfast. cbn [inet_csk_ca tcp_sk ai].
    split; [apply update_ai_spec; exact Hv|].
    intros Hw Hc. apply additive_increase_window; assumption.
  - intros [Hlim|Hslow].
    + rewrite Hlim. reflexivity.
    + apply Z.leb_le in Hslow. rewrite Hslow.
      destruct (negb (limited sk)); reflexivity.
Qed.

(** At window 10000 a fast-growth call moves the index from 0 to 29 and
    leaves the window at 10000 or 10001; at window 10 in slow start the
    index is left at 0. *)
Lemma cong_avoid_index_relation_witness :
  (index_relation 10000
     (ai (inet_csk_ca
        (tcp_china_cong_avoid (fun _ => true) tcp_slow_start_model
           (cong_avoid_run (fun _ => true) tcp_slow_start_model
              (tcp_china_init sk_10000) []) 0 1))) /\
   (snd_cwnd (tcp_sk
        (tcp_china_cong_avoid (fun _ => true) tcp_slow_start_model
           (cong_avoid_run (fun _ => true) tcp_slow_start_model
              (tcp_china_init sk_10000) []) 0 1)) = 10000 \/
    snd_cwnd (tcp_sk
        (tcp_china_cong_avoid (fun _ => true) tcp_slow_start_model
           (cong_avoid_run (fun _ => true) tcp_slow_start_model
              (tcp_china_init sk_10000) []) 0 1)) = 10000 + 1)) /\
  ai (inet_csk_ca
        (tcp_china_cong_avoid (fun _ => true) tcp_slow_start_model
           (cong_avoid_run (fun _ => true) tcp_slow_start_model
              (tcp_china_init sk_unset) [(0, 1)]) 0 1)) = 0.
Proof.
  split.
  - destruct (cong_avoid_index_relation (fun _ => true) tcp_slow_start_model
                sk_10000 [] 0 1) as [_ [_ [Hfast _]]].
    destruct Hfast as [Hrel Hwnd].
    + reflexivity.
    + vm_compute. reflexivity.
    + split; [exact Hrel|]. apply Hwnd.
      * vm_compute. split; [discriminate|reflexivity].
      * vm_compute. split; [discriminate|reflexivity].
  - destruct (cong_avoid_index_relation (fun _ => true) tcp_slow_start_model
                sk_unset [(0, 1)] 0 1) as [_ [_ [_ Hslow]]].
    rewrite Hslow; [reflexivity|].
    right. vm_compute. discriminate.
Defined.

(** C6: a window-limited call in fast growth, with the window below the
    clamp, adds [ai + 1] to the counter (a 32-bit addition), [ai] being the
    table index as this call adjusts it; when the counter then reaches the
    window, the window is taken off the counter and the window grows by
    exactly one segment; otherwise the window is unchanged. *)
Theorem cong_avoid_fast_growth_step :
  forall (tcp_is_cwnd_limited : sock -> bool)
         (tcp_slow_start : tcp_sock -> Z -> tcp_sock)
         (sk : sock) (ack acked : Z),
    let tp := tcp_sk sk in
    let sk' := tcp_china_cong_avoid tcp_is_cwnd_limited tcp_slow_start
                 sk ack acked in
    tcp_is_cwnd_limited sk = true ->
    snd_ssthresh tp < snd_cwnd tp ->
    snd_cwnd tp < snd_cwnd_clamp tp ->
    is_u32 (snd_cwnd tp) -> is_u32 (snd_cwnd_clamp tp) ->
    is_u32 (snd_cwnd_cnt tp) ->
    valid_index (ai (inet_csk_ca sk)) ->
    let i := ai (inet_csk_ca sk') in
    let cnt := u32 (snd_cwnd_cnt tp + (i + 1)) in
    i = update_ai (snd_cwnd tp) (ai (inet_csk_ca sk)) /\
    (snd_cwnd_cnt tp + (i + 1) < u32_modulus ->
     cnt = snd_cwnd_cnt tp + (i + 1)) /\
    (snd_cwnd tp <= cnt ->
     snd_cwnd_cnt (tcp_sk sk') = cnt - snd_cwnd tp /\
     snd_cwnd (tcp_sk sk') = snd_cwnd tp + 1) /\
    (cnt < snd_cwnd tp ->
     snd_cwnd_cnt (tcp_sk sk') = cnt /\
     snd_cwnd (tcp_sk sk') = snd_cwnd tp).
Proof.
  intros limited slow sk ack acked tp sk' Hlim Hfast Hclamp Hw Hc Hcnt Hv.
  assert (Hsk' : sk' = {| tcp_sk := additive_increase tp
                                      (update_ai (snd_cwnd tp) (ai (inet_csk_ca sk)));
                          inet_csk_ca :=
                            {| minrtt := minrtt (inet_csk_ca sk);
                               artt := artt (inet_csk_ca sk);
                               ai := update_ai (snd_cwnd tp) (ai (inet_csk_ca sk)) |} |}).
  { subst sk'. unfold tcp_china_cong_avoid. rewrite Hlim. cbn [negb].
    apply Z.leb_gt in Hfast. fold tp. rewrite Hfast. reflexivity. }
  rewrite Hsk'. cbn [inet_csk_ca tcp_sk ai].
  set (i := update_ai (snd_cwnd tp) (ai (inet_csk_ca sk))).
  assert (Hi : valid_index i) by (apply update_ai_spec; exact Hv).
  unfold valid_index in Hi. rewrite HSTCP_AIMD_MAX_eq in Hi.
  unfold is_u32 in Hw, Hc, Hcnt. rewrite u32_modulus_eq in *.
  split; [reflexivity|]. split.
  - intros Hfit. apply u32_small. unfold is_u32. rewrite u32_modulus_eq. lia.
  - pose proof (u32_range (snd_cwnd_cnt tp + (i + 1))) as Hr.
    unfold is_u32 in Hr. rewrite u32_modulus_eq in Hr.
    unfold additive_increase.
    apply Z.ltb_lt in Hclamp. rewrite Hclamp. apply Z.ltb_lt in Hclamp.
    rewrite (u32_small (i + 1)) by (unfold is_u32; rewrite u32_modulus_eq; lia).
    split.
    + intros Hge. apply Z.geb_le in Hge. rewrite Hge. cbn [snd_cwnd snd_cwnd_cnt].
      apply Z.geb_le in Hge.
      split; apply u32_small; unfold is_u32; rewrite u32_modulus_eq; lia.
    + intros Hlt.
      assert (Hge : (u32 (snd_cwnd_cnt tp + (i + 1)) >=? snd_cwnd tp) = false).
      { rewrite Z.geb_leb. apply Z.leb_gt. exact Hlt. }
      rewrite Hge. split; reflexivity.
Qed.

(** Window 38 sits on the first threshold, so the index stays 0.  With the
    counter at 37 it goes to 38, reaches the window, and the window becomes
    39; with the counter at 0 it goes to 1 and the window stays 38. *)
Lemma cong_avoid_fast_growth_step_witness :
  (ai (inet_csk_ca (tcp_china_cong_avoid (fun _ => true) tcp_slow_start_model
                      sk_38_full 0 1)) = 0 /\
   snd_cwnd_cnt (tcp_sk (tcp_china_cong_avoid (fun _ => true) tcp_slow_start_model
                           sk_38_full 0 1)) = 0 /\
   snd_cwnd (tcp_sk (tcp_china_cong_avoid (fun _ => true) tcp_slow_start_model
                       sk_38_full 0 1)) = 39) /\
  (snd_cwnd_cnt (tcp_sk (tcp_china_cong_avoid (fun _ => true) tcp_slow_start_model
                           sk_38 0 1)) = 1 /\
   snd_cwnd (tcp_sk (tcp_china_cong_avoid (fun _ => true) tcp_slow_start_model
                       sk_38 0 1)) = 38).
Proof.
  assert (Hr : forall x, 0 <= x < 4294967296 -> is_u32 x).
  { intros x Hx. unfold is_u32. rewrite u32_modulus_eq. exact Hx. }
  split.
  - destruct (cong_avoid_fast_growth_step (fun _ => true) tcp_slow_start_model
                sk_38_full 0 1) as [Hi [Hfit [Hgrow _]]].
    + reflexivity.
    + cbn. lia.
    + cbn. lia.
    + apply Hr. cbn. lia.
    + apply Hr. cbn. lia.
    + apply Hr. cbn. lia.
    + unfold valid_index. rewrite HSTCP_AIMD_MAX_eq. cbn. lia.
    + split; [rewrite Hi; reflexivity|].
      destruct Hgrow as [Hcnt Hwnd].
      * rewrite Hfit; [vm_compute; discriminate|vm_compute; reflexivity].
      * split; [rewrite Hcnt|rewrite Hwnd]; reflexivity.
  - destruct (cong_avoid_fast_growth_step (fun _ => true) tcp_slow_start_model
                sk_38 0 1) as [_ [_ [_ Hkeep]]].
    + reflexivity.
    + cbn. lia.
    + cbn. lia.
    + apply Hr. cbn. lia.
    + apply Hr. cbn. lia.
    + apply Hr. cbn. lia.
    + unfold valid_index. rewrite HSTCP_AIMD_MAX_eq. cbn. lia.
    + destruct Hkeep as [Hcnt Hwnd].
      * vm_compute. reflexivity.
      * split; [rewrite Hcnt|rewrite Hwnd]; reflexivity.
Defined.

(** ** RTT estimator *)

(** The smoothing step on 32-bit operands, without the reductions. *)
Lemma artt_smoothing a r :
  is_u32 a -> is_u32 r -> 0 < a ->
  u32 (a + u32 (Z.shiftr r 3 - Z.shiftr a 3)) = a + r / 8 - a / 8 /\
  0 < a + r / 8 - a / 8.
Proof.
  unfold is_u32. rewrite u32_modulus_eq. intros Ha Hr Hpos.
  rewrite u32_add_idemp_r.
  rewrite !Z.shiftr_div_pow2 by lia. change (2 ^ 3) with 8.
  assert (Ha8 : 0 <= a / 8 /\ 8 * (a / 8) <= a /\ a < 8 * (a / 8) + 8).
  { pose proof (Z.div_mod a 8). pose proof (Z.mod_pos_bound a 8). lia. }
  assert (Hr8 : 0 <= r / 8 /\ 8 * (r / 8) <= r).
  { pose proof (Z.div_mod r 8). pose proof (Z.mod_pos_bound r 8). lia. }
  split; [|lia].
  replace (a + (r / 8 - a / 8)) with (a + r / 8 - a / 8) by lia.
  apply u32_small. unfold is_u32. rewrite u32_modulus_eq. lia.
Qed.

(** C4 (as stated, refuted): on an unset estimator the positive sample 100
    is not used as given but stored as 101, and the sample -1 is stored as
    0, leaving both fields zero after a sample has been recorded. *)
Lemma rtt_calc_sample_counterexample :
  minrtt (inet_csk_ca (tcp_china_rtt_calc sk_unset 1 100)) = 101 /\
  artt (inet_csk_ca (tcp_china_rtt_calc sk_unset 1 100)) = 101 /\
  minrtt (inet_csk_ca (tcp_china_rtt_calc sk_unset 1 (-1))) = 0 /\
  artt (inet_csk_ca (tcp_china_rtt_calc sk_unset 1 (-1))) = 0.
Proof. repeat split. Qed.

(** The sample value of the code, [rtt_us + 1] stored in a u32: the plain
    sum for a raw sample that is not negative, [2^32] more for one below
    -1, and positive in both cases. *)
Lemma rtt_plus_one_positive rtt_us :
  is_s32 rtt_us -> rtt_us <> -1 ->
  0 < u32 (rtt_us + 1) /\
  (0 <= rtt_us -> u32 (rtt_us + 1) = rtt_us + 1) /\
  (rtt_us < -1 -> u32 (rtt_us + 1) = rtt_us + 1 + u32_modulus).
Proof.
  unfold is_s32. change (2 ^ 31) with 2147483648. intros Hs Hne.
  destruct (Z_lt_ge_dec rtt_us 0) as [Hneg|Hpos].
  - assert (Hu : u32 (rtt_us + 1) = rtt_us + 1 + u32_modulus).
    { unfold u32. rewrite <- (Z.mod_add (rtt_us + 1) 1 u32_modulus)
        by (rewrite u32_modulus_eq; discriminate).
      rewrite Z.mul_1_l. apply Z.mod_small. rewrite u32_modulus_eq. lia. }
    rewrite Hu. rewrite u32_modulus_eq. repeat split; lia.
  - assert (Hu : u32 (rtt_us + 1) = rtt_us + 1).
    { apply u32_small. unfold is_u32. rewrite u32_modulus_eq. lia. }
    rewrite Hu. repeat split; lia.
Qed.

(** C4 (amended): every call takes [rtt_us + 1], stored in a u32, as the
    sample value, whether the raw sample is positive or not (a positive raw
    sample is never used as given); for every raw sample other than -1 that
    value is strictly positive, it is what the minimum and the average are
    updated with, and both fields are nonzero after the call. *)
Theorem rtt_calc_sample_plus_one :
  forall (sk : sock) (num_acked rtt_us : Z),
    is_u32 (minrtt (inet_csk_ca sk)) -> is_u32 (artt (inet_csk_ca sk)) ->
    is_s32 rtt_us -> rtt_us <> -1 ->
    let ca := inet_csk_ca sk in
    let ca' := inet_csk_ca (tcp_china_rtt_calc sk num_acked rtt_us) in
    let rtt := u32 (rtt_us + 1) in
    (0 <= rtt_us -> rtt = rtt_us + 1) /\
    0 < rtt /\
    minrtt ca' = (if minrtt ca =? 0 then rtt else Z.min rtt (minrtt ca)) /\
    artt ca' = (if artt ca =? 0 then rtt
                else artt ca + rtt / 8 - artt ca / 8) /\
    0 < minrtt ca' /\ 0 < artt ca'.
Proof.
  intros sk num_acked rtt_us Hmin Havg Hs Hne ca ca' rtt.
  destruct (rtt_plus_one_positive rtt_us Hs Hne) as [Hpos [Hplain _]].
  fold rtt in Hpos, Hplain.
  assert (Hr : is_u32 rtt) by apply u32_range.
  split; [exact Hplain|]. split; [exact Hpos|].
  subst ca'. unfold tcp_china_rtt_calc. cbn [inet_csk_ca minrtt artt].
  fold ca. fold rtt. fold ca in Hmin, Havg.
  assert (Hm : (if (rtt <? minrtt ca) || (minrtt ca =? 0)
                then rtt else minrtt ca)
               = (if minrtt ca =? 0 then rtt else Z.min rtt (minrtt ca))).
  { destruct (minrtt ca =? 0) eqn:Hz.
    - rewrite orb_true_r. reflexivity.
    - rewrite orb_false_r.
      destruct (rtt <? minrtt ca) eqn:Hlt.
      + apply Z.ltb_lt in Hlt. lia.
      + apply Z.ltb_ge in Hlt. lia. }
  assert (Ha : (if artt ca >? 0
                then u32 (artt ca + u32 (Z.shiftr rtt 3 - Z.shiftr (artt ca) 3))
                else rtt)
               = (if artt ca =? 0 then rtt
                  else artt ca + rtt / 8 - artt ca / 8) /\
               0 < (if artt ca =? 0 then rtt
                    else artt ca + rtt / 8 - artt ca / 8)).
  { rewrite Z.gtb_ltb.
    destruct (artt ca =? 0) eqn:Hz.
    - apply Z.eqb_eq in Hz. rewrite Hz. cbn [Z.ltb Z.compare].
      split; [reflexivity|exact Hpos].
    - apply Z.eqb_neq in Hz.
      assert (Hgt : 0 < artt ca) by (unfold is_u32 in Havg; lia).
      pose proof Hgt as Hgtb. apply Z.ltb_lt in Hgtb. rewrite Hgtb.
      apply artt_smoothing; assumption. }
  destruct Ha as [Ha Hapos].
  rewrite Hm, Ha. split; [reflexivity|]. split; [reflexivity|].
  split; [|exact Hapos].
  unfold is_u32 in Hmin.
  destruct (minrtt ca =? 0) eqn:Hz; [exact Hpos|].
  apply Z.eqb_neq in Hz. lia.
Qed.

(** The sample 100 on an unset estimator is recorded as 101. *)
Lemma rtt_calc_sample_plus_one_witness :
  u32 (100 + 1) = 100 + 1 /\
  minrtt (inet_csk_ca (tcp_china_rtt_calc sk_unset 1 100)) = 101 /\
  0 < artt (inet_csk_ca (tcp_china_rtt_calc sk_unset 1 100)).
Proof.
  destruct (rtt_calc_sample_plus_one sk_unset 1 100)
    as [Hplain [_ [Hmin [_ [_ Hpos]]]]].
  - vm_compute. split; [discriminate|reflexivity].
  - vm_compute. split; [discriminate|reflexivity].
  - vm_compute. split; [discriminate|reflexivity].
  - discriminate.
  - split; [apply Hplain; discriminate|].
    split; [rewrite Hmin; reflexivity|exact Hpos].
Defined.

(** C5 (as stated, refuted): one sample of 100 on an unset estimator leaves
    101 in both fields, and so do ten of them: the average does not move
    towards 100. *)
Lemma rtt_calc_constant_counterexample :
  minrtt (inet_csk_ca (tcp_china_rtt_calc sk_unset 1 100)) <> 100 /\
  artt (inet_csk_ca (tcp_china_rtt_calc sk_unset 1 100)) <> 100 /\
  artt (inet_csk_ca (rtt_calc_repeat 10 sk_unset 1 100)) = 101.
Proof.
  split; [|split]; vm_compute; [discriminate|discriminate|reflexivity].
Qed.

Lemma rtt_calc_fixpoint sk num_acked v :
  minrtt (inet_csk_ca sk) = u32 (v + 1) ->
  artt (inet_csk_ca sk) = u32 (v + 1) ->
  minrtt (inet_csk_ca (tcp_china_rtt_calc sk num_acked v)) = u32 (v + 1) /\
  artt (inet_csk_ca (tcp_china_rtt_calc sk num_acked v)) = u32 (v + 1).
Proof.
  intros Hmin Havg. unfold tcp_china_rtt_calc. cbn [inet_csk_ca minrtt artt].
  rewrite Hmin, Havg. set (r := u32 (v + 1)).
  assert (Hr : is_u32 r) by apply u32_range.
  split.
  - destruct ((r <? r) || (r =? 0)); reflexivity.
  - destruct (r >? 0); [|reflexivity].
    rewrite Z.sub_diag. change (u32 0) with 0. rewrite Z.add_0_r.
    apply u32_small. exact Hr.
Qed.

Lemma rtt_calc_first sk num_acked v :
  ca_unset sk ->
  minrtt (inet_csk_ca (tcp_china_rtt_calc sk num_acked v)) = u32 (v + 1) /\
  artt (inet_csk_ca (tcp_china_rtt_calc sk num_acked v)) = u32 (v + 1).
Proof.
  intros [Hmin Havg]. unfold tcp_china_rtt_calc. cbn [inet_csk_ca minrtt artt].
  rewrite Hmin, Havg. rewrite orb_true_r. split; reflexivity.
Qed.

(** C5 (amended): from an unset estimator, any positive number of calls
    with the same sample [v] leaves [v + 1] (as a 32-bit value; exactly
    [v + 1] for [v >= 0] in the range of an s32) in both [minrtt] and
    [artt], from the first call on; in particular one call with sample 100
    leaves [minrtt = 101] and [artt = 101]. *)
Theorem rtt_calc_constant_sample :
  (forall (sk : sock) (num_acked v : Z) (n : nat),
     ca_unset sk -> (0 < n)%nat ->
     let ca' := inet_csk_ca (rtt_calc_repeat n sk num_acked v) in
     artt ca' = u32 (v + 1) /\ minrtt ca' = u32 (v + 1) /\
     (0 <= v -> is_s32 v -> artt ca' = v + 1 /\ minrtt ca' = v + 1)) /\
  (forall sk : sock,
     ca_unset sk ->
     minrtt (inet_csk_ca (tcp_china_rtt_calc sk 1 100)) = 101 /\
     artt (inet_csk_ca (tcp_china_rtt_calc sk 1 100)) = 101).
Proof.
  split.
  - intros sk num_acked v n Hunset Hn ca'.
    assert (H : minrtt ca' = u32 (v + 1) /\ artt ca' = u32 (v + 1)).
    { subst ca'. destruct n as [|n]; [inversion Hn|]. clear Hn.
      induction n as [|n IH].
      - apply rtt_calc_first. exact Hunset.
      - destruct IH as [IHmin IHavg].
        change (rtt_calc_repeat (S (S n)) sk num_acked v)
          with (tcp_china_rtt_calc (rtt_calc_repeat (S n) sk num_acked v) num_acked v).
        apply rtt_calc_fixpoint; assumption. }
    destruct H as [Hmin Havg].
    split; [exact Havg|]. split; [exact Hmin|].
    intros Hpos Hs. rewrite Hmin, Havg.
    assert (Hu : u32 (v + 1) = v + 1).
    { apply u32_small. unfold is_u32, is_s32 in *. rewrite u32_modulus_eq.
      change (2 ^ 31) with 2147483648 in Hs. lia. }
    rewrite Hu. split; reflexivity.
  - intros sk Hunset.
    destruct (rtt_calc_first sk 1 100 Hunset) as [Hmin Havg].
    rewrite Hmin, Havg. split; reflexivity.
Qed.

Lemma rtt_calc_constant_sample_witness :
  artt (inet_csk_ca (rtt_calc_repeat 5 sk_unset 1 250)) = 251 /\
  minrtt (inet_csk_ca (tcp_china_rtt_calc sk_unset 1 100)) = 101.
Proof.
  assert (Hu : ca_unset sk_unset) by (split; reflexivity).
  split.
  - destruct (proj1 rtt_calc_constant_sample sk_unset 1 250 5%nat Hu)
      as [_ [_ Hplain]].
    + apply Nat.lt_0_succ.
    + apply Hplain.
      * vm_compute. discriminate.
      * vm_compute. split; [discriminate|reflexivity].
  - apply (proj2 rtt_calc_constant_sample sk_unset Hu).
Defined.

(** C10: the estimator never looks at the acknowledged count: two calls
    that differ only in it leave the same socket, so the same [minrtt] and
    [artt]. *)
Theorem rtt_calc_num_acked_irrelevant :
  forall (sk : sock) (num_acked1 num_acked2 rtt_us : Z),
    tcp_china_rtt_calc sk num_acked1 rtt_us
    = tcp_china_rtt_calc sk num_acked2 rtt_us /\
    minrtt (inet_csk_ca (tcp_china_rtt_calc sk num_acked1 rtt_us))
    = minrtt (inet_csk_ca (tcp_china_rtt_calc sk num_acked2 rtt_us)) /\
    artt (inet_csk_ca (tcp_china_rtt_calc sk num_acked1 rtt_us))
    = artt (inet_csk_ca (tcp_china_rtt_calc sk num_acked2 rtt_us)).
Proof.
  intros sk n1 n2 rtt_us. repeat split.
Qed.

(** * Further properties *)

(** ** The index as a function of the window *)

Lemma aimd_cwnd_mono i j :
  valid_index i -> valid_index j -> i <= j ->
  cwnd (aimd_at i) <= cwnd (aimd_at j).
Proof.
  intros Hi Hj Hij.
  assert (Hn : forall n : nat, valid_index (i + Z.of_nat n) ->
                 cwnd (aimd_at i) <= cwnd (aimd_at (i + Z.of_nat n))).
  { induction n as [|n IH]; intros Hv.
    - rewrite Z.add_0_r. lia.
    - assert (Hv' : valid_index (i + Z.of_nat n))
        by (unfold valid_index in *; lia).
      specialize (IH Hv').
      replace (i + Z.of_nat (S n)) with (i + Z.of_nat n + 1) in * by lia.
      pose proof (aimd_cwnd_increasing _ Hv' Hv). lia. }
  replace j with (i + Z.of_nat (Z.to_nat (j - i))) by lia.
  apply Hn. replace (i + Z.of_nat (Z.to_nat (j - i))) with j by lia. exact Hj.
Qed.

(** A larger window never has a smaller bracket. *)
Lemma index_relation_mono w1 w2 i j :
  valid_index i -> valid_index j ->
  index_relation w1 i -> index_relation w2 j ->
  w1 <= w2 -> i <= j.
Proof.
  intros Hi Hj [Hlow1 _] [_ Hup2] Hw.
  destruct (Z_le_gt_dec i j) as [Hle|Hgt]; [exact Hle|exfalso].
  destruct Hlow1 as [Hz|Hlow1]; [unfold valid_index in Hj; lia|].
  destruct Hup2 as [Hup2|[Hlast _]]; [|unfold valid_index in Hi; lia].
  assert (Hm : cwnd (aimd_at j) <= cwnd (aimd_at (i - 1))).
  { apply aimd_cwnd_mono; unfold valid_index in *; lia. }
  lia.
Qed.

Lemma index_relation_unique w i j :
  valid_index i -> valid_index j ->
  index_relation w i -> index_relation w j -> i = j.
Proof.
  intros Hi Hj Hri Hrj.
  pose proof (index_relation_mono w w i j Hi Hj Hri Hrj (Z.le_refl w)).
  pose proof (index_relation_mono w w j i Hj Hi Hrj Hri (Z.le_refl w)).
  lia.
Qed.

Lemma update_ai_fixed w i :
  valid_index i -> index_relation w i -> update_ai w i = i.
Proof.
  intros Hi Hrel. destruct (update_ai_spec w i Hi) as [Hv Hr].
  apply (index_relation_unique w); assumption.
Qed.

(** X1: the index update is a search by the window alone: whatever valid
    index it starts from, it ends on the one index whose bracket holds the
    window; in particular an index that is already right is left alone. *)
Theorem update_ai_unique :
  forall w i j : Z,
    valid_index i -> valid_index j -> index_relation w j ->
    update_ai w i = j.
Proof.
  intros w i j Hi Hj Hrel.
  destruct (update_ai_spec w i Hi) as [Hv Hr].
  apply (index_relation_unique w); assumption.
Qed.

Lemma update_ai_unique_witness : update_ai 10000 71 = 29 /\ update_ai 10000 29 = 29.
Proof.
  assert (Hv : forall k, 0 <= k < 72 -> valid_index k).
  { intros k Hk. unfold valid_index. rewrite HSTCP_AIMD_MAX_eq. exact Hk. }
  assert (Hrel : index_relation 10000 29) by (apply index_relationb_spec; reflexivity).
  split.
  - apply (update_ai_unique 10000 71 29); [apply Hv; lia|apply Hv; lia|exact Hrel].
  - apply (update_ai_unique 10000 29 29); [apply Hv; lia|apply Hv; lia|exact Hrel].
Defined.

(** X2: the index the update settles on is monotone in the window: a
    window that is not smaller gets an index that is not smaller, whatever
    the two starting indices. *)
Theorem update_ai_monotone :
  forall w1 w2 i j : Z,
    valid_index i -> valid_index j -> w1 <= w2 ->
    update_ai w1 i <= update_ai w2 j.
Proof.
  intros w1 w2 i j Hi Hj Hw.
  destruct (update_ai_spec w1 i Hi) as [Hv1 Hr1].
  destruct (update_ai_spec w2 j Hj) as [Hv2 Hr2].
  apply (index_relation_mono w1 w2); assumption.
Qed.

Lemma update_ai_monotone_witness : update_ai 500 40 <= update_ai 9000 3.
Proof.
  apply (update_ai_monotone 500 9000 40 3).
  - vm_compute. split; [discriminate|reflexivity].
  - vm_compute. split; [discriminate|reflexivity].
  - discriminate.
Defined.

(** One more segment moves the bracket by at most one entry. *)
Lemma update_ai_next w i :
  valid_index i -> index_relation w i ->
  update_ai (w + 1) i = i \/ update_ai (w + 1) i = i + 1.
Proof.
  intros Hi Hrel.
  destruct (update_ai_spec (w + 1) i Hi) as [Hv Hr].
  set (j := update_ai (w + 1) i) in *.
  assert (Hle : i <= j).
  { apply (index_relation_mono w (w + 1)); try assumption. lia. }
  destruct (Z_le_gt_dec j (i + 1)) as [Hsmall|Hbig]; [lia|exfalso].
  destruct Hr as [[Hz|Hlow] _]; [unfold valid_index in Hi; lia|].
  destruct Hrel as [_ [Hup|[Hlast _]]]; [|unfold valid_index in Hv; lia].
  assert (H1 : cwnd (aimd_at i) < cwnd (aimd_at (i + 1))).
  { apply aimd_cwnd_increasing; unfold valid_index in *; lia. }
  assert (H2 : cwnd (aimd_at (i + 1)) <= cwnd (aimd_at (j - 1))).
  { apply aimd_cwnd_mono; unfold valid_index in *; lia. }
  lia.
Qed.

(** X3: two window-limited fast-growth calls in a row: the second moves the
    table index by at most one entry from where the first left it, so its
    index loop runs at most once. *)
Theorem cong_avoid_index_step :
  forall (tcp_is_cwnd_limited : sock -> bool)
         (tcp_slow_start : tcp_sock -> Z -> tcp_sock)
         (sk : sock) (ack1 acked1 ack2 acked2 : Z),
    let sk1 := tcp_china_cong_avoid tcp_is_cwnd_limited tcp_slow_start
                 sk ack1 acked1 in
    let sk2 := tcp_china_cong_avoid tcp_is_cwnd_limited tcp_slow_start
                 sk1 ack2 acked2 in
    valid_index (ai (inet_csk_ca sk)) ->
    is_u32 (snd_cwnd (tcp_sk sk)) -> is_u32 (snd_cwnd_clamp (tcp_sk sk)) ->
    tcp_is_cwnd_limited sk = true ->
    snd_ssthresh (tcp_sk sk) < snd_cwnd (tcp_sk sk) ->
    tcp_is_cwnd_limited sk1 = true ->
    snd_ssthresh (tcp_sk sk1) < snd_cwnd (tcp_sk sk1) ->
    ai (inet_csk_ca sk2) = ai (inet_csk_ca sk1) \/
    ai (inet_csk_ca sk2) = ai (inet_csk_ca sk1) + 1.
Proof.
  intros limited slow sk ack1 acked1 ack2 acked2 sk1 sk2
         Hv Hw Hc Hlim Hfast Hlim1 Hfast1.
  set (w := snd_cwnd (tcp_sk sk)) in *.
  set (i := update_ai w (ai (inet_csk_ca sk))).
  assert (Hsk1 : sk1 = {| tcp_sk := additive_increase (tcp_sk sk) i;
                          inet_csk_ca :=
                            {| minrtt := minrtt (inet_csk_ca sk);
                               artt := artt (inet_csk_ca sk);
                               ai := i |} |}).
  { subst sk1. unfold tcp_china_cong_avoid. rewrite Hlim. cbn [negb].
    fold w. apply Z.leb_gt in Hfast. rewrite Hfast. reflexivity. }
  destruct (update_ai_spec w (ai (inet_csk_ca sk)) Hv) as [Hvi Hri].
  fold i in Hvi, Hri.
  assert (Hai2 : ai (inet_csk_ca sk2)
                 = update_ai (snd_cwnd (tcp_sk sk1)) (ai (inet_csk_ca sk1))).
  { subst sk2. unfold tcp_china_cong_avoid. rewrite Hlim1. cbn [negb].
    apply Z.leb_gt in Hfast1. rewrite Hfast1. reflexivity. }
  rewrite Hai2. rewrite Hsk1. cbn [inet_csk_ca tcp_sk ai].
  destruct (additive_increase_window (tcp_sk sk) i Hw Hc) as [Hsame|Hnext];
    rewrite ?Hsame, ?Hnext; fold w.
  - left. apply update_ai_fixed; assumption.
  - apply update_ai_next; assumption.
Qed.

Lemma cong_avoid_index_step_witness :
  ai (inet_csk_ca
        (tcp_china_cong_avoid (fun _ => true) tcp_slow_start_model
           (tcp_china_cong_avoid (fun _ => true) tcp_slow_start_model
              sk_38_full 0 1) 0 1)) = 0 + 1.
Proof.
  destruct (cong_avoid_index_step (fun _ => true) tcp_slow_start_model
              sk_38_full 0 1 0 1) as [H|H].
  - vm_compute. split; [discriminate|reflexivity].
  - vm_compute. split; [discriminate|reflexivity].
  - vm_compute. split; [discriminate|reflexivity].
  - reflexivity.
  - vm_compute. reflexivity.
  - reflexivity.
  - vm_compute. reflexivity.
  - exfalso. vm_compute in H. discriminate H.
  - exact H.
Defined.

(** ** The size of the decrease *)

Lemma md_share_le_half w m :
  is_u32 w -> 0 <= m <= 128 ->
  0 <= Z.shiftr (u32 (w * m)) 8 <= w / 2.
Proof.
  unfold is_u32, u32. rewrite u32_modulus_eq. intros Hw Hm.
  rewrite Z.shiftr_div_pow2 by lia. change (2 ^ 8) with 256.
  assert (Hp : 0 <= (w * m) mod 4294967296 <= w * m).
  { split; [apply Z.mod_pos_bound; lia|apply Z.mod_le; nia]. }
  assert (Hq : (w * m) mod 4294967296 <= w * 128) by nia.
  split; [apply Z.div_pos; lia|].
  apply Z.div_le_lower_bound; [lia|].
  pose proof (Z.mul_div_le ((w * m) mod 4294967296) 256). lia.
Qed.

Lemma tcp_china_ssthresh_unwrapped sk :
  is_u32 (snd_cwnd (tcp_sk sk)) -> valid_index (ai (inet_csk_ca sk)) ->
  tcp_china_ssthresh sk
  = Z.max (snd_cwnd (tcp_sk sk)
           - Z.shiftr (u32 (snd_cwnd (tcp_sk sk)
                            * md (aimd_at (ai (inet_csk_ca sk))))) 8) 2.
Proof.
  intros Hw Hi. unfold tcp_china_ssthresh.
  pose proof (md_share_le_window _ _ Hw (aimd_md_bound _ Hi)) as Hq.
  rewrite u32_small; [reflexivity|]. unfold is_u32 in *. lia.
Qed.

(** X4: a congestion event gives up at most half of the window and never
    raises it: for every 32-bit window [w] and valid index the new threshold
    lies between [w - w/2] and [max(w, 2)]. *)
Theorem tcp_china_ssthresh_bounds :
  forall sk : sock,
    let w := snd_cwnd (tcp_sk sk) in
    is_u32 w -> valid_index (ai (inet_csk_ca sk)) ->
    w - w / 2 <= tcp_china_ssthresh sk <= Z.max w 2.
Proof.
  intros sk w Hw Hi.
  rewrite (tcp_china_ssthresh_unwrapped sk Hw Hi). fold w.
  pose proof (md_share_le_half w _ Hw (aimd_md_bound _ Hi)) as Hq.
  lia.
Qed.

Lemma tcp_china_ssthresh_bounds_witness :
  10000 - 10000 / 2 <= tcp_china_ssthresh sk_10000 <= Z.max 10000 2.
Proof.
  apply (tcp_china_ssthresh_bounds sk_10000).
  - vm_compute. split; [discriminate|reflexivity].
  - vm_compute. split; [discriminate|reflexivity].
Defined.

Lemma aimd_md_antitone i j :
  valid_index i -> valid_index j -> i <= j ->
  md (aimd_at j) <= md (aimd_at i).
Proof.
  intros Hi Hj Hij.
  assert (Hadj : forall k, valid_index k -> valid_index (k + 1) ->
                   md (aimd_at (k + 1)) <= md (aimd_at k)).
  { intros k Hk Hk1.
    pose proof (valid_index_forallb
      (fun x => negb (x + 1 <? HSTCP_AIMD_MAX) ||
                (md (aimd_at (x + 1)) <=? md (aimd_at x)))
      eq_refl k Hk) as H.
    cbv beta in H. destruct Hk1 as [_ Hhi].
    apply Z.ltb_lt in Hhi. rewrite Hhi in H. apply Z.leb_le. exact H. }
  assert (Hn : forall n : nat, valid_index (i + Z.of_nat n) ->
                 md (aimd_at (i + Z.of_nat n)) <= md (aimd_at i)).
  { induction n as [|n IH]; intros Hv.
    - rewrite Z.add_0_r. lia.
    - assert (Hv' : valid_index (i + Z.of_nat n))
        by (unfold valid_index in *; lia).
      specialize (IH Hv').
      replace (i + Z.of_nat (S n)) with (i + Z.of_nat n + 1) in * by lia.
      pose proof (Hadj _ Hv' Hv). lia. }
  replace j with (i + Z.of_nat (Z.to_nat (j - i))) by lia.
  apply Hn. replace (i + Z.of_nat (Z.to_nat (j - i))) with j by lia. exact Hj.
Qed.

Lemma tcp_china_ssthresh_exact sk :
  0 <= snd_cwnd (tcp_sk sk) <= MD_CLAMP ->
  valid_index (ai (inet_csk_ca sk)) ->
  tcp_china_ssthresh sk
  = Z.max (snd_cwnd (tcp_sk sk)
           - snd_cwnd (tcp_sk sk) * md (aimd_at (ai (inet_csk_ca sk))) / 256) 2.
Proof.
  intros Hw Hi.
  assert (Hu : is_u32 (snd_cwnd (tcp_sk sk))).
  { unfold is_u32. rewrite u32_modulus_eq. rewrite MD_CLAMP_eq in Hw. lia. }
  rewrite (tcp_china_ssthresh_unwrapped sk Hu Hi).
  rewrite (u32_small _ (md_product_fits _ _ Hw (aimd_md_bound _ Hi))).
  rewrite Z.shiftr_div_pow2 by lia. reflexivity.
Qed.

(** X5: within the clamp set at initialisation the new threshold is
    monotone in both of its inputs: a window that is not smaller, at a table
    index that is not smaller, never gets a smaller threshold. *)
Theorem tcp_china_ssthresh_monotone :
  forall sk1 sk2 : sock,
    0 <= snd_cwnd (tcp_sk sk1) ->
    snd_cwnd (tcp_sk sk1) <= snd_cwnd (tcp_sk sk2) ->
    snd_cwnd (tcp_sk sk2) <= MD_CLAMP ->
    valid_index (ai (inet_csk_ca sk1)) -> valid_index (ai (inet_csk_ca sk2)) ->
    ai (inet_csk_ca sk1) <= ai (inet_csk_ca sk2) ->
    tcp_china_ssthresh sk1 <= tcp_china_ssthresh sk2.
Proof.
  intros sk1 sk2 Hw1 Hw12 Hw2 Hi1 Hi2 Hi12.
  rewrite (tcp_china_ssthresh_exact sk1) by (try assumption; lia).
  rewrite (tcp_china_ssthresh_exact sk2) by (try assumption; lia).
  pose proof (aimd_md_bound _ Hi1) as Hm1.
  pose proof (aimd_md_bound _ Hi2) as Hm2.
  pose proof (aimd_md_antitone _ _ Hi1 Hi2 Hi12) as Hm12.
  set (w1 := snd_cwnd (tcp_sk sk1)) in *.
  set (w2 := snd_cwnd (tcp_sk sk2)) in *.
  set (m1 := md (aimd_at (ai (inet_csk_ca sk1)))) in *.
  set (m2 := md (aimd_at (ai (inet_csk_ca sk2)))) in *.
  assert (Hstep : w2 * m2 <= w1 * m1 + 128 * (w2 - w1)) by nia.
  assert (Hpos : 0 <= w1 * m1) by nia.
  assert (Hq : w2 * m2 / 256 <= w1 * m1 / 256 + (w2 - w1)).
  { clear - Hstep Hpos Hw12. revert Hstep Hpos.
    generalize (w1 * m1) (w2 * m2). intros a b Hstep Hpos.
    Z.div_mod_to_equations. lia. }
  lia.
Qed.

Lemma tcp_china_ssthresh_monotone_witness :
  tcp_china_ssthresh sk_lagging <= tcp_china_ssthresh sk_10000.
Proof.
  apply (tcp_china_ssthresh_monotone sk_lagging sk_10000).
  - vm_compute. discriminate.
  - vm_compute. discriminate.
  - vm_compute. discriminate.
  - vm_compute. split; [discriminate|reflexivity].
  - vm_compute. split; [discriminate|reflexivity].
  - vm_compute. discriminate.
Defined.

(** X6: the clamp of [tcp_china_init] is tight.  At table index 0, where
    the decrease factor is 128, the new threshold is the exact halving
    [max(w - w/2, 2)] if and only if the window is at most
    [0xffffffff/128]; above it the 32-bit product wraps and less than half
    is given up. *)
Theorem tcp_china_ssthresh_halving_iff :
  forall sk : sock,
    let w := snd_cwnd (tcp_sk sk) in
    is_u32 w -> ai (inet_csk_ca sk) = 0 ->
    (tcp_china_ssthresh sk = Z.max (w - w / 2) 2 <-> w <= 0xffffffff / 128).
Proof.
  intros sk w Hw Hai.
  assert (Hi : valid_index (ai (inet_csk_ca sk))).
  { rewrite Hai. unfold valid_index. rewrite HSTCP_AIMD_MAX_eq. lia. }
  change (0xffffffff / 128) with 33554431.
  unfold is_u32 in Hw. rewrite u32_modulus_eq in Hw.
  split.
  - intros Heq.
    destruct (Z_le_gt_dec w 33554431) as [Hle|Hgt]; [exact Hle|exfalso].
    rewrite (tcp_china_ssthresh_unwrapped sk) in Heq
      by (try assumption; unfold is_u32; rewrite u32_modulus_eq; exact Hw).
    fold w in Heq. rewrite Hai in Heq.
    change (md (aimd_at 0)) with 128 in Heq.
    rewrite Z.shiftr_div_pow2 in Heq by lia. change (2 ^ 8) with 256 in Heq.
    unfold u32 in Heq. rewrite u32_modulus_eq in Heq.
    assert (Hq : (w * 128) mod 4294967296 / 256 < 16777216).
    { apply Z.div_lt_upper_bound; [lia|].
      pose proof (Z.mod_pos_bound (w * 128) 4294967296). lia. }
    assert (Hh : 16777216 <= w / 2) by (apply Z.div_le_lower_bound; lia).
    assert (Hh' : w / 2 <= w) by (apply Z.div_le_upper_bound; lia).
    lia.
  - intros Hle.
    rewrite (tcp_china_ssthresh_exact sk)
      by (try assumption; fold w; rewrite MD_CLAMP_eq; lia).
    fold w. rewrite Hai. change (md (aimd_at 0)) with 128.
    replace (w * 128 / 256) with (w / 2); [reflexivity|].
    Z.div_mod_to_equations. lia.
Qed.

Lemma tcp_china_ssthresh_halving_iff_witness :
  tcp_china_ssthresh sk_38 = 19 /\
  tcp_china_ssthresh sk_over <> Z.max (33554432 - 33554432 / 2) 2.
Proof.
  split.
  - assert (Hw : is_u32 (snd_cwnd (tcp_sk sk_38)))
      by (vm_compute; split; [discriminate|reflexivity]).
    apply (proj2 (tcp_china_ssthresh_halving_iff sk_38 Hw eq_refl)).
    vm_compute. discriminate.
  - intros Heq.
    assert (Hw : is_u32 (snd_cwnd (tcp_sk sk_over)))
      by (vm_compute; split; [discriminate|reflexivity]).
    pose proof (proj1 (tcp_china_ssthresh_halving_iff sk_over Hw eq_refl) Heq) as Hle.
    vm_compute in Hle. apply Hle. reflexivity.
Defined.

(** ** The counter in fast growth *)

Lemma aimd_index_below_cwnd i :
  valid_index i -> 0 < i -> i <= cwnd (aimd_at (i - 1)).
Proof.
  intros Hi Hpos.
  pose proof (valid_index_forallb
    (fun j => (j <=? 0) || (j <=? cwnd (aimd_at (j - 1)))) eq_refl i Hi) as H.
  cbv beta in H. apply orb_true_iff in H. destruct H as [H|H].
  - apply Z.leb_le in H. lia.
  - apply Z.leb_le in H. exact H.
Qed.

Lemma u32_add_cases x :
  0 <= x < 2 * u32_modulus ->
  (x < u32_modulus /\ u32 x = x) \/
  (u32_modulus <= x /\ u32 x = x - u32_modulus).
Proof.
  intros Hx. destruct (Z_lt_ge_dec x u32_modulus) as [Hlt|Hge].
  - left. split; [exact Hlt|]. apply u32_small. unfold is_u32. lia.
  - right. split; [lia|]. unfold u32.
    rewrite <- (Z.mod_add x (-1) u32_modulus)
      by (rewrite u32_modulus_eq; discriminate).
    replace (x + -1 * u32_modulus) with (x - u32_modulus) by lia.
    apply Z.mod_small. lia.
Qed.

(** X7: what a window-limited fast-growth call keeps: a counter that was
    below the window is below the window afterwards (so one call never
    carries more than one increment over), a window within the clamp stays
    within it, the window never shrinks, and neither the slow-start
    threshold nor the clamp is written. *)
Theorem cong_avoid_fast_path_keeps :
  forall (tcp_is_cwnd_limited : sock -> bool)
         (tcp_slow_start : tcp_sock -> Z -> tcp_sock)
         (sk : sock) (ack acked : Z),
    let tp := tcp_sk sk in
    let tp' := tcp_sk (tcp_china_cong_avoid tcp_is_cwnd_limited tcp_slow_start
                         sk ack acked) in
    tcp_is_cwnd_limited sk = true ->
    snd_ssthresh tp < snd_cwnd tp ->
    is_u32 (snd_cwnd tp) -> is_u32 (snd_cwnd_clamp tp) ->
    is_u32 (snd_cwnd_cnt tp) ->
    valid_index (ai (inet_csk_ca sk)) ->
    (snd_cwnd_cnt tp < snd_cwnd tp -> snd_cwnd_cnt tp' < snd_cwnd tp') /\
    (snd_cwnd tp <= snd_cwnd_clamp tp -> snd_cwnd tp' <= snd_cwnd_clamp tp') /\
    snd_cwnd tp <= snd_cwnd tp' /\
    snd_ssthresh tp' = snd_ssthresh tp /\
    snd_cwnd_clamp tp' = snd_cwnd_clamp tp.
Proof.
  intros limited slow sk ack acked tp tp' Hlim Hfast Hw Hc Hcnt Hv.
  set (i := update_ai (snd_cwnd tp) (ai (inet_csk_ca sk))).
  assert (Htp' : tp' = additive_increase tp i).
  { subst tp'. unfold tcp_china_cong_avoid. rewrite Hlim. cbn [negb].
    fold tp. apply Z.leb_gt in Hfast. rewrite Hfast. reflexivity. }
  destruct (update_ai_spec (snd_cwnd tp) (ai (inet_csk_ca sk)) Hv) as [Hvi Hri].
  fold i in Hvi, Hri.
  assert (Hiw : i <= snd_cwnd tp).
  { destruct Hri as [[Hz|Hlow] _].
    - unfold is_u32 in Hw. lia.
    - destruct (Z.eq_dec i 0) as [Hz|Hnz]; [unfold is_u32 in Hw; lia|].
      assert (Hb : i <= cwnd (aimd_at (i - 1))).
      { apply aimd_index_below_cwnd; [exact Hvi|unfold valid_index in Hvi; lia]. }
      lia. }
  unfold valid_index in Hvi. rewrite HSTCP_AIMD_MAX_eq in Hvi.
  unfold is_u32 in Hw, Hc, Hcnt.
  rewrite Htp'. unfold additive_increase.
  destruct (snd_cwnd tp <? snd_cwnd_clamp tp) eqn:Hlt.
  - apply Z.ltb_lt in Hlt.
    rewrite (u32_small (i + 1)) by (unfold is_u32; rewrite u32_modulus_eq; lia).
    assert (Hrange : 0 <= snd_cwnd_cnt tp + (i + 1) < 2 * u32_modulus)
      by (rewrite u32_modulus_eq in *; lia).
    pose proof (u32_add_cases _ Hrange) as Hcases.
    set (cnt := u32 (snd_cwnd_cnt tp + (i + 1))) in *.
    destruct (cnt >=? snd_cwnd tp) eqn:Hge; cbn [snd_cwnd snd_cwnd_cnt snd_ssthresh snd_cwnd_clamp].
    + apply Z.geb_le in Hge.
      assert (Hcr : 0 <= cnt < u32_modulus) by (apply u32_range).
      rewrite (u32_small (snd_cwnd tp + 1)) by (unfold is_u32; lia).
      rewrite (u32_small (cnt - snd_cwnd tp)) by (unfold is_u32; lia).
      rewrite u32_modulus_eq in *. repeat split; lia.
    + rewrite Z.geb_leb in Hge. apply Z.leb_gt in Hge.
      repeat split; lia.
  - repeat split; lia.
Qed.

Lemma cong_avoid_fast_path_keeps_witness :
  snd_cwnd_cnt (tcp_sk (tcp_china_cong_avoid (fun _ => true)
                          tcp_slow_start_model sk_busy 0 1))
  < snd_cwnd (tcp_sk (tcp_china_cong_avoid (fun _ => true)
                        tcp_slow_start_model sk_busy 0 1)) /\
  snd_cwnd (tcp_sk (tcp_china_cong_avoid (fun _ => true)
                      tcp_slow_start_model sk_busy 0 1)) <= 1000000.
Proof.
  destruct (cong_avoid_fast_path_keeps (fun _ => true) tcp_slow_start_model
              sk_busy 0 1) as [Hcnt [Hclamp _]].
  - reflexivity.
  - vm_compute. reflexivity.
  - vm_compute. split; [discriminate|reflexivity].
  - vm_compute. split; [discriminate|reflexivity].
  - vm_compute. split; [discriminate|reflexivity].
  - vm_compute. split; [discriminate|reflexivity].
  - split.
    + apply Hcnt. vm_compute. reflexivity.
    + apply Hclamp. vm_compute. discriminate.
Defined.

(** ** More on the RTT estimator *)

Lemma rtt_calc_frame sk num_acked rtt_us :
  tcp_sk (tcp_china_rtt_calc sk num_acked rtt_us) = tcp_sk sk /\
  ai (inet_csk_ca (tcp_china_rtt_calc sk num_acked rtt_us)) = ai (inet_csk_ca sk).
Proof. split; reflexivity. Qed.

Lemma rtt_calc_minrtt sk num_acked rtt_us :
  minrtt (inet_csk_ca (tcp_china_rtt_calc sk num_acked rtt_us))
  = (if minrtt (inet_csk_ca sk) =? 0 then u32 (rtt_us + 1)
     else Z.min (u32 (rtt_us + 1)) (minrtt (inet_csk_ca sk))).
Proof.
  unfold tcp_china_rtt_calc. cbn [inet_csk_ca minrtt].
  destruct (minrtt (inet_csk_ca sk) =? 0) eqn:Hz.
  - rewrite orb_true_r. reflexivity.
  - rewrite orb_false_r.
    destruct (u32 (rtt_us + 1) <? minrtt (inet_csk_ca sk)) eqn:Hlt.
    + apply Z.ltb_lt in Hlt. lia.
    + apply Z.ltb_ge in Hlt. lia.
Qed.

Lemma rtt_calc_artt sk num_acked rtt_us :
  is_u32 (artt (inet_csk_ca sk)) ->
  artt (inet_csk_ca (tcp_china_rtt_calc sk num_acked rtt_us))
  = artt_step (u32 (rtt_us + 1)) (artt (inet_csk_ca sk)).
Proof.
  intros Ha. unfold tcp_china_rtt_calc, artt_step. cbn [inet_csk_ca artt].
  rewrite Z.gtb_ltb.
  destruct (artt (inet_csk_ca sk) =? 0) eqn:Hz.
  - apply Z.eqb_eq in Hz. rewrite Hz. reflexivity.
  - apply Z.eqb_neq in Hz.
    assert (Hgt : 0 < artt (inet_csk_ca sk)) by (unfold is_u32 in Ha; lia).
    pose proof Hgt as Hgtb. apply Z.ltb_lt in Hgtb. rewrite Hgtb.
    apply artt_smoothing; [exact Ha|apply u32_range|exact Hgt].
Qed.

Lemma rtt_calc_artt_u32 sk num_acked rtt_us :
  is_u32 (artt (inet_csk_ca (tcp_china_rtt_calc sk num_acked rtt_us))).
Proof.
  unfold tcp_china_rtt_calc. cbn [inet_csk_ca artt].
  destruct (artt (inet_csk_ca sk) >? 0); apply u32_range.
Qed.

Lemma artt_step_between r a :
  a <> 0 -> Z.min a r <= artt_step r a <= Z.max a r.
Proof.
  intros Hnz. unfold artt_step.
  apply Z.eqb_neq in Hnz. rewrite Hnz.
  Z.div_mod_to_equations. lia.
Qed.

(** X8: smoothing never overshoots: once an average is set, a call leaves
    the new average between the old average and the sample value
    [rtt_us + 1] (as a u32), both included. *)
Theorem rtt_calc_no_overshoot :
  forall (sk : sock) (num_acked rtt_us : Z),
    is_u32 (artt (inet_csk_ca sk)) -> 0 < artt (inet_csk_ca sk) ->
    let a := artt (inet_csk_ca sk) in
    let a' := artt (inet_csk_ca (tcp_china_rtt_calc sk num_acked rtt_us)) in
    Z.min a (u32 (rtt_us + 1)) <= a' <= Z.max a (u32 (rtt_us + 1)).
Proof.
  intros sk num_acked rtt_us Hu Hpos a a'. subst a'.
  rewrite (rtt_calc_artt sk num_acked rtt_us Hu). fold a.
  apply artt_step_between. subst a. lia.
Qed.

Lemma rtt_calc_no_overshoot_witness :
  50 <= artt (inet_csk_ca (tcp_china_rtt_calc sk_busy 1 199)) <= 200.
Proof.
  apply (rtt_calc_no_overshoot sk_busy 1 199).
  - vm_compute. split; [discriminate|reflexivity].
  - vm_compute. reflexivity.
Defined.

(** X9: a raw sample of -1 is stored as the value 0.  It clears the
    minimum, so the next sample becomes the minimum whatever was seen
    before; a set average is not cleared, only decayed by an eighth. *)
Theorem rtt_calc_minus_one_forgets :
  forall (sk : sock) (num_acked1 num_acked2 rtt_us : Z),
    is_u32 (minrtt (inet_csk_ca sk)) -> is_u32 (artt (inet_csk_ca sk)) ->
    let sk1 := tcp_china_rtt_calc sk num_acked1 (-1) in
    minrtt (inet_csk_ca sk1) = 0 /\
    minrtt (inet_csk_ca (tcp_china_rtt_calc sk1 num_acked2 rtt_us))
      = u32 (rtt_us + 1) /\
    artt (inet_csk_ca sk1)
      = artt (inet_csk_ca sk) - artt (inet_csk_ca sk) / 8 /\
    (0 < artt (inet_csk_ca sk) -> 0 < artt (inet_csk_ca sk1)).
Proof.
  intros sk n1 n2 rtt_us Hm Ha sk1.
  assert (H0 : minrtt (inet_csk_ca sk1) = 0).
  { subst sk1. rewrite rtt_calc_minrtt. change (u32 (-1 + 1)) with 0.
    unfold is_u32 in Hm.
    destruct (minrtt (inet_csk_ca sk) =? 0); [reflexivity|lia]. }
  assert (H1 : artt (inet_csk_ca sk1)
               = artt (inet_csk_ca sk) - artt (inet_csk_ca sk) / 8).
  { subst sk1. rewrite (rtt_calc_artt sk n1 (-1) Ha).
    change (u32 (-1 + 1)) with 0. unfold artt_step.
    destruct (artt (inet_csk_ca sk) =? 0) eqn:Hz.
    - apply Z.eqb_eq in Hz. rewrite Hz. reflexivity.
    - change (0 / 8) with 0. lia. }
  split; [exact H0|]. split; [|split; [exact H1|]].
  - rewrite rtt_calc_minrtt. rewrite H0. reflexivity.
  - intros Hpos. rewrite H1. Z.div_mod_to_equations. lia.
Qed.

Lemma rtt_calc_minus_one_forgets_witness :
  minrtt (inet_csk_ca (tcp_china_rtt_calc
                         (tcp_china_rtt_calc sk_busy 1 (-1)) 1 99)) = 100.
Proof.
  destruct (rtt_calc_minus_one_forgets sk_busy 1 1 99) as [_ [H _]].
  - vm_compute. split; [discriminate|reflexivity].
  - vm_compute. split; [discriminate|reflexivity].
  - rewrite H. reflexivity.
Defined.

Lemma rtt_calc_run_snoc sk samples c :
  rtt_calc_run sk (samples ++ [c])
  = tcp_china_rtt_calc (rtt_calc_run sk samples) (fst c) (snd c).
Proof. unfold rtt_calc_run. rewrite fold_left_app. reflexivity. Qed.

(** X10: from an unset estimator, after any non-empty run of samples none
    of which is -1, [minrtt] is the smallest sample value seen (each being
    [rtt_us + 1] as a u32), it is not zero, the average is not below it,
    and the average is not above the largest sample value seen. *)
Theorem rtt_calc_run_minimum :
  forall (sk : sock) (samples : list (Z * Z)),
    ca_unset sk -> samples <> [] ->
    Forall (fun c => usable_sample (snd c)) samples ->
    let ca' := inet_csk_ca (rtt_calc_run sk samples) in
    (forall c, In c samples -> minrtt ca' <= u32 (snd c + 1)) /\
    (exists c, In c samples /\ minrtt ca' = u32 (snd c + 1)) /\
    0 < minrtt ca' /\
    minrtt ca' <= artt ca' /\
    (exists c, In c samples /\ artt ca' <= u32 (snd c + 1)).
Proof.
  intros sk samples Hunset. cbv zeta.
  induction samples as [|c samples IH] using rev_ind; intros Hne Hall;
    [congruence|].
  apply Forall_app in Hall. destruct Hall as [Hall Hc].
  inversion Hc as [|c0 l0 Hcu _]; subst. destruct Hcu as [Hs Hm1].
  destruct (rtt_plus_one_positive (snd c) Hs Hm1) as [Hpos _].
  rewrite rtt_calc_run_snoc.
  destruct samples as [|c1 samples'].
  - cbn [rtt_calc_run fold_left app].
    destruct (rtt_calc_first sk (fst c) (snd c) Hunset) as [Hmin Havg].
    rewrite Hmin, Havg.
    split; [intros c' [<-|[]]; lia|].
    split; [exists c; split; [left; reflexivity|reflexivity]|].
    split; [exact Hpos|]. split; [lia|].
    exists c. split; [left; reflexivity|lia].
  - assert (Hne' : c1 :: samples' <> []) by discriminate.
    destruct (IH Hne' Hall) as [Hlow [[cm [Hcm Hcmeq]] [Hmpos [Hma [cM [HcM HcMle]]]]]].
    set (s := rtt_calc_run sk (c1 :: samples')) in *.
    assert (Hau : is_u32 (artt (inet_csk_ca s))).
    { subst s. destruct (exists_last Hne') as [l' [x Heq]].
      rewrite Heq, rtt_calc_run_snoc. apply rtt_calc_artt_u32. }
    rewrite rtt_calc_minrtt, (rtt_calc_artt s _ _ Hau).
    assert (Hmz : (minrtt (inet_csk_ca s) =? 0) = false) by (apply Z.eqb_neq; lia).
    rewrite Hmz.
    assert (Hanz : artt (inet_csk_ca s) <> 0) by lia.
    pose proof (artt_step_between (u32 (snd c + 1)) _ Hanz) as Hbetween.
    set (r := u32 (snd c + 1)) in *.
    set (m := minrtt (inet_csk_ca s)) in *.
    set (a := artt (inet_csk_ca s)) in *.
    split; [|split; [|split; [lia|split; [lia|]]]].
    + intros c' Hin. apply in_app_or in Hin. destruct Hin as [Hin|[<-|[]]].
      * specialize (Hlow c' Hin). lia.
      * fold r. lia.
    + destruct (Z_le_gt_dec r m) as [Hle|Hgt].
      * exists c. split; [apply in_or_app; right; left; reflexivity|].
        fold r. lia.
      * exists cm. split; [apply in_or_app; left; exact Hcm|]. lia.
    + destruct (Z_le_gt_dec r a) as [Hle|Hgt].
      * exists cM. split; [apply in_or_app; left; exact HcM|]. lia.
      * exists c. split; [apply in_or_app; right; left; reflexivity|].
        fold r. lia.
Qed.

Lemma rtt_calc_run_minimum_witness :
  minrtt (inet_csk_ca (rtt_calc_run sk_unset [(1, 300); (2, 120); (1, -7); (1, 250)]))
  <= u32 (120 + 1) /\
  0 < minrtt (inet_csk_ca (rtt_calc_run sk_unset [(1, 300); (2, 120); (1, -7); (1, 250)])).
Proof.
  destruct (rtt_calc_run_minimum sk_unset [(1, 300); (2, 120); (1, -7); (1, 250)])
    as [Hlow [_ [Hpos _]]].
  - split; reflexivity.
  - discriminate.
  - repeat constructor; cbn; try discriminate.
  - split; [|exact Hpos].
    apply (Hlow (2, 120)). right. left. reflexivity.
Defined.

Lemma rtt_calc_repeat_artt n :
  forall sk num_acked rtt_us,
    is_u32 (artt (inet_csk_ca sk)) ->
    is_u32 (artt (inet_csk_ca (rtt_calc_repeat n sk num_acked rtt_us))) /\
    artt (inet_csk_ca (rtt_calc_repeat n sk num_acked rtt_us))
    = Nat.iter n (artt_step (u32 (rtt_us + 1))) (artt (inet_csk_ca sk)).
Proof.
  induction n as [|n IH]; intros sk num_acked rtt_us Ha.
  - split; [exact Ha|reflexivity].
  - destruct (IH sk num_acked rtt_us Ha) as [Hu Heq].
    change (rtt_calc_repeat (S n) sk num_acked rtt_us)
      with (tcp_china_rtt_calc (rtt_calc_repeat n sk num_acked rtt_us)
              num_acked rtt_us).
    split; [apply rtt_calc_artt_u32|].
    rewrite (rtt_calc_artt _ _ _ Hu), Heq. reflexivity.
Qed.

Lemma artt_step_settled r a :
  a / 8 = r / 8 -> artt_step r a / 8 = r / 8.
Proof.
  intros Heq. unfold artt_step. destruct (a =? 0); [reflexivity|].
  rewrite Heq. replace (a + r / 8 - r / 8) with a by lia. exact Heq.
Qed.

Lemma artt_step_closer r a :
  a / 8 <> r / 8 -> Z.abs (artt_step r a - r) < Z.abs (a - r).
Proof.
  intros Hne. unfold artt_step. destruct (a =? 0) eqn:Hz.
  - apply Z.eqb_eq in Hz. subst a.
    assert (r <> 0) by (intros ->; apply Hne; reflexivity). lia.
  - revert Hne. Z.div_mod_to_equations. lia.
Qed.

Lemma artt_step_iter_settles n :
  forall r a,
    Z.abs (a - r) <= Z.of_nat n ->
    Nat.iter n (artt_step r) a / 8 = r / 8.
Proof.
  induction n as [|n IH]; intros r a Hdist.
  - cbn [Nat.iter]. replace a with r by lia. reflexivity.
  - rewrite Nat.iter_succ_r.
    destruct (Z.eq_dec (a / 8) (r / 8)) as [Heq|Hne].
    + clear IH Hdist. revert a Heq. induction n as [|n IHn]; intros a Heq.
      * cbn [Nat.iter]. apply artt_step_settled. exact Heq.
      * rewrite Nat.iter_succ_r. apply IHn. apply artt_step_settled. exact Heq.
    + apply IH. pose proof (artt_step_closer r a Hne). lia.
Qed.

(** X11: smoothing settles.  With the same sample on every call and a
    starting average [a] (set or not), after at least [|a - r|] calls,
    [r = rtt_us + 1] (as a u32) being the sample value, the average lies in
    the same block of eight as [r], hence within 7 of it; truncation may
    keep it from reaching [r] itself. *)
Theorem rtt_calc_settles :
  forall (sk : sock) (num_acked rtt_us : Z) (n : nat),
    is_u32 (artt (inet_csk_ca sk)) ->
    let r := u32 (rtt_us + 1) in
    Z.abs (artt (inet_csk_ca sk) - r) <= Z.of_nat n ->
    let a' := artt (inet_csk_ca (rtt_calc_repeat n sk num_acked rtt_us)) in
    a' / 8 = r / 8 /\ Z.abs (a' - r) <= 7.
Proof.
  intros sk num_acked rtt_us n Ha r Hdist a'.
  destruct (rtt_calc_repeat_artt n sk num_acked rtt_us Ha) as [_ Heq].
  fold a' in Heq. fold r in Heq.
  assert (H8 : a' / 8 = r / 8).
  { rewrite Heq. apply artt_step_iter_settles. exact Hdist. }
  split; [exact H8|].
  revert H8. Z.div_mod_to_equations. lia.
Qed.

Lemma rtt_calc_settles_witness :
  Z.abs (artt (inet_csk_ca (rtt_calc_repeat 150 sk_busy 1 199)) - 200) <= 7.
Proof.
  apply (rtt_calc_settles sk_busy 1 199 150).
  - vm_compute. split; [discriminate|reflexivity].
  - vm_compute. discriminate.
Defined.

(** ** The estimator and the window controller are independent *)

(** X12: the RTT estimator and the window controller do not read each
    other's fields: recording a sample and processing an ACK commute, as
    long as the stack's window-limit test only looks at the [tcp_sock]
    fields, and a recorded sample never changes the next slow-start
    threshold. *)
Theorem rtt_calc_cong_avoid_commute :
  forall (tcp_is_cwnd_limited : sock -> bool)
         (tcp_slow_start : tcp_sock -> Z -> tcp_sock)
         (sk : sock) (ack acked num_acked rtt_us : Z),
    (forall s1 s2, tcp_sk s1 = tcp_sk s2 ->
                   tcp_is_cwnd_limited s1 = tcp_is_cwnd_limited s2) ->
    tcp_china_rtt_calc
      (tcp_china_cong_avoid tcp_is_cwnd_limited tcp_slow_start sk ack acked)
      num_acked rtt_us
    = tcp_china_cong_avoid tcp_is_cwnd_limited tcp_slow_start
        (tcp_china_rtt_calc sk num_acked rtt_us) ack acked /\
    tcp_china_ssthresh (tcp_china_rtt_calc sk num_acked rtt_us)
    = tcp_china_ssthresh sk.
Proof.
  intros limited slow sk ack acked num_acked rtt_us Hlim.
  split; [|reflexivity].
  unfold tcp_china_cong_avoid.
  rewrite (Hlim (tcp_china_rtt_calc sk num_acked rtt_us) sk) by reflexivity.
  destruct (negb (limited sk)); [reflexivity|].
  cbn [tcp_sk tcp_china_rtt_calc].
  destruct (snd_cwnd (tcp_sk sk) <=? snd_ssthresh (tcp_sk sk)); reflexivity.
Qed.

Lemma rtt_calc_cong_avoid_commute_witness :
  tcp_china_rtt_calc
    (tcp_china_cong_avoid (fun _ => true) tcp_slow_start_model sk_busy 0 1)
    1 199
  = tcp_china_cong_avoid (fun _ => true) tcp_slow_start_model
      (tcp_china_rtt_calc sk_busy 1 199) 0 1.
Proof.
  apply (rtt_calc_cong_avoid_commute (fun _ => true) tcp_slow_start_model
           sk_busy 0 1 1 199).
  intros s1 s2 _. reflexivity.
Defined.

(** ** Termination of the index loops *)

Lemma ai_advance_loop_fuel w :
  forall f1 f2 i,
    valid_index i ->
    (Z.to_nat (HSTCP_AIMD_MAX - 1 - i) <= f1)%nat ->
    (Z.to_nat (HSTCP_AIMD_MAX - 1 - i) <= f2)%nat ->
    ai_advance_loop f1 w i = ai_advance_loop f2 w i.
Proof.
  unfold valid_index. rewrite HSTCP_AIMD_MAX_eq.
  assert (Hlast : forall f i, 72 - 1 <= i -> ai_advance_loop f w i = i).
  { intros f i Hi. destruct f as [|f]; [reflexivity|]. cbn [ai_advance_loop].
    rewrite HSTCP_AIMD_MAX_eq.
    assert (Hlt : (i <? 72 - 1) = false) by (apply Z.ltb_ge; exact Hi).
    rewrite Hlt, andb_false_r. reflexivity. }
  induction f1 as [|f1 IH]; intros f2 i Hv H1 H2.
  - rewrite (Hlast f2 i) by lia. reflexivity.
  - destruct f2 as [|f2].
    + rewrite (Hlast (S f1) i) by lia. reflexivity.
    + cbn [ai_advance_loop]. rewrite HSTCP_AIMD_MAX_eq.
      destruct ((w >? cwnd (aimd_at i)) && (i <? 72 - 1)) eqn:Hc; [|reflexivity].
      apply andb_true_iff in Hc. destruct Hc as [_ Hlt]. apply Z.ltb_lt in Hlt.
      rewrite (u32_small (i + 1)) by (unfold is_u32; rewrite u32_modulus_eq; lia).
      apply IH; lia.
Qed.

Lemma ai_retreat_loop_fuel w :
  forall f1 f2 i,
    valid_index i ->
    (Z.to_nat i <= f1)%nat -> (Z.to_nat i <= f2)%nat ->
    ai_retreat_loop f1 w i = ai_retreat_loop f2 w i.
Proof.
  unfold valid_index. rewrite HSTCP_AIMD_MAX_eq.
  assert (Hfirst : forall f, ai_retreat_loop f w 0 = 0).
  { intros f. destruct f as [|f]; reflexivity. }
  induction f1 as [|f1 IH]; intros f2 i Hv H1 H2.
  - replace i with 0 by lia. rewrite !Hfirst. reflexivity.
  - destruct f2 as [|f2].
    + replace i with 0 by lia. rewrite !Hfirst. reflexivity.
    + cbn [ai_retreat_loop].
      destruct (negb (i =? 0) && (w <=? cwnd (aimd_at (i - 1)))) eqn:Hc;
        [|reflexivity].
      apply andb_true_iff in Hc. destruct Hc as [Hnz _].
      apply negb_true_iff in Hnz. apply Z.eqb_neq in Hnz.
      rewrite (u32_small (i - 1)) by (unfold is_u32; rewrite u32_modulus_eq; lia).
      apply IH; lia.
Qed.

(** X13: both index loops of [tcp_china_cong_avoid] stop by themselves
    within [HSTCP_AIMD_MAX] rounds from any valid index: a larger bound on
    the number of rounds gives the same index, the index they stop on makes
    their own loop condition false, and it is a valid index. *)
Theorem index_loops_terminate :
  forall (w i : Z) (fuel : nat),
    valid_index i -> (loop_fuel <= fuel)%nat ->
    (ai_advance_loop fuel w i = ai_advance_loop loop_fuel w i /\
     (w >? cwnd (aimd_at (ai_advance_loop fuel w i))) &&
     (ai_advance_loop fuel w i <? HSTCP_AIMD_MAX - 1) = false /\
     i <= ai_advance_loop fuel w i < HSTCP_AIMD_MAX) /\
    (ai_retreat_loop fuel w i = ai_retreat_loop loop_fuel w i /\
     negb (ai_retreat_loop fuel w i =? 0) &&
     (w <=? cwnd (aimd_at (ai_retreat_loop fuel w i - 1))) = false /\
     0 <= ai_retreat_loop fuel w i <= i).
Proof.
  intros w i fuel Hv Hfuel.
  assert (Hf : (Z.to_nat (HSTCP_AIMD_MAX - 1 - i) <= loop_fuel)%nat /\
               (Z.to_nat i <= loop_fuel)%nat).
  { unfold valid_index in Hv. unfold loop_fuel. lia. }
  destruct Hf as [Hfa Hfr].
  assert (Hadv : forall f j, valid_index j -> i <= j ->
                   i <= ai_advance_loop f w j < HSTCP_AIMD_MAX).
  { unfold valid_index. rewrite HSTCP_AIMD_MAX_eq.
    induction f as [|f IH]; intros j Hj Hij; cbn [ai_advance_loop]; [lia|].
    rewrite HSTCP_AIMD_MAX_eq.
    destruct ((w >? cwnd (aimd_at j)) && (j <? 72 - 1)) eqn:Hc; [|lia].
    apply andb_true_iff in Hc. destruct Hc as [_ Hlt]. apply Z.ltb_lt in Hlt.
    rewrite (u32_small (j + 1)) by (unfold is_u32; rewrite u32_modulus_eq; lia).
    apply IH; lia. }
  assert (Hret : forall f j, 0 <= j <= i -> 0 <= ai_retreat_loop f w j <= i).
  { induction f as [|f IH]; intros j Hj; cbn [ai_retreat_loop]; [lia|].
    destruct (negb (j =? 0) && (w <=? cwnd (aimd_at (j - 1)))) eqn:Hc; [|lia].
    apply andb_true_iff in Hc. destruct Hc as [Hnz _].
    apply negb_true_iff in Hnz. apply Z.eqb_neq in Hnz.
    unfold valid_index in Hv. rewrite HSTCP_AIMD_MAX_eq in Hv.
    rewrite (u32_small (j - 1)) by (unfold is_u32; rewrite u32_modulus_eq; lia).
    apply IH; lia. }
  split.
  - assert (Heq : ai_advance_loop fuel w i = ai_advance_loop loop_fuel w i)
      by (apply ai_advance_loop_fuel; [exact Hv|lia|exact Hfa]).
    split; [exact Heq|]. split.
    + rewrite Heq. apply ai_advance_loop_exit. exact Hv.
    + apply Hadv; [exact Hv|lia].
  - assert (Heq : ai_retreat_loop fuel w i = ai_retreat_loop loop_fuel w i)
      by (apply ai_retreat_loop_fuel; [exact Hv|lia|exact Hfr]).
    split; [exact Heq|]. split.
    + rewrite Heq. apply ai_retreat_loop_exit. exact Hv.
    + apply Hret. unfold valid_index in Hv. lia.
Qed.

Lemma index_loops_terminate_witness :
  ai_advance_loop 500 10000 3 = ai_advance_loop loop_fuel 10000 3 /\
  ai_retreat_loop 500 100 60 = ai_retreat_loop loop_fuel 100 60.
Proof.
  assert (Hv3 : valid_index 3) by (vm_compute; split; [discriminate|reflexivity]).
  assert (Hv60 : valid_index 60) by (vm_compute; split; [discriminate|reflexivity]).
  assert (Hf : (loop_fuel <= 500)%nat) by (vm_compute; repeat constructor).
  split.
  - apply (index_loops_terminate 10000 3 500 Hv3 Hf).
  - apply (index_loops_terminate 100 60 500 Hv60 Hf).
Defined.

(** ** Fields stay 32-bit values *)

(** Brings the range of every [u32 _] in the goal into the context. *)
Ltac u32_facts :=
  repeat match goal with
         | |- context [u32 ?x] =>
             lazymatch goal with
             | _ : 0 <= u32 x < u32_modulus |- _ => fail
             | _ => pose proof (u32_range x : 0 <= u32 x < u32_modulus)
             end
         end.

Lemma additive_increase_u32 tp i :
  tcp_sock_u32 tp -> tcp_sock_u32 (additive_increase tp i).
Proof.
  unfold tcp_sock_u32, is_u32, additive_increase. intros H.
  destruct (snd_cwnd tp <? snd_cwnd_clamp tp); [|exact H].
  destruct (u32 (snd_cwnd_cnt tp + u32 (i + 1)) >=? snd_cwnd tp);
    cbn [snd_cwnd snd_ssthresh snd_cwnd_cnt snd_cwnd_clamp];
    u32_facts; repeat split; lia.
Qed.

(** X14: every operation keeps the state inside 32 bits: starting from a
    socket whose fields are all u32 values, with a valid table index, the
    sockets left by [tcp_china_init], [tcp_china_rtt_calc] and
    [tcp_china_cong_avoid] have u32 fields again and a valid index, and
    [tcp_china_ssthresh] returns a u32; for [tcp_china_cong_avoid] this
    needs the stack's slow start to keep the [tcp_sock] fields u32. *)
Theorem sock_u32_preserved :
  forall (tcp_is_cwnd_limited : sock -> bool)
         (tcp_slow_start : tcp_sock -> Z -> tcp_sock)
         (sk : sock) (ack acked num_acked rtt_us : Z),
    (forall tp a, tcp_sock_u32 tp -> is_u32 a ->
                  tcp_sock_u32 (tcp_slow_start tp a)) ->
    sock_u32 sk -> valid_index (ai (inet_csk_ca sk)) -> is_u32 acked ->
    (sock_u32 (tcp_china_init sk) /\
     valid_index (ai (inet_csk_ca (tcp_china_init sk)))) /\
    (sock_u32 (tcp_china_rtt_calc sk num_acked rtt_us) /\
     valid_index (ai (inet_csk_ca (tcp_china_rtt_calc sk num_acked rtt_us)))) /\
    (sock_u32 (tcp_china_cong_avoid tcp_is_cwnd_limited tcp_slow_start
                 sk ack acked) /\
     valid_index (ai (inet_csk_ca
       (tcp_china_cong_avoid tcp_is_cwnd_limited tcp_slow_start
          sk ack acked)))) /\
    is_u32 (tcp_china_ssthresh sk).
Proof.
  intros limited slow sk ack acked num_acked rtt_us Hslow Hsk Hv Hacked.
  assert (Htp : tcp_sock_u32 (tcp_sk sk)).
  { unfold sock_u32 in Hsk. unfold tcp_sock_u32. tauto. }
  split; [|split; [|split]].
  - split; [|apply tcp_china_init_valid_index].
    unfold sock_u32, is_u32 in *. unfold tcp_china_init, tcp_china_reset.
    cbn [tcp_sk inet_csk_ca snd_cwnd snd_ssthresh snd_cwnd_cnt snd_cwnd_clamp
         minrtt artt ai].
    u32_facts. rewrite u32_modulus_eq in *. repeat split; lia.
  - split; [|exact Hv].
    pose proof (rtt_calc_artt_u32 sk num_acked rtt_us) as Ha'.
    pose proof (rtt_calc_minrtt sk num_acked rtt_us) as Hm'.
    destruct (rtt_calc_frame sk num_acked rtt_us) as [Hfr Hai].
    unfold sock_u32 in *. rewrite Hfr, Hai, Hm'. unfold is_u32 in *.
    u32_facts.
    destruct (minrtt (inet_csk_ca sk) =? 0); repeat split; lia.
  - split; [|apply cong_avoid_valid_index; exact Hv].
    unfold tcp_china_cong_avoid.
    destruct (negb (limited sk)); [exact Hsk|].
    destruct (snd_cwnd (tcp_sk sk) <=? snd_ssthresh (tcp_sk sk)).
    + pose proof (Hslow _ _ Htp Hacked) as Hs.
      unfold sock_u32, tcp_sock_u32 in *. cbn [tcp_sk inet_csk_ca]. tauto.
    + pose proof (additive_increase_u32 (tcp_sk sk)
                    (update_ai (snd_cwnd (tcp_sk sk)) (ai (inet_csk_ca sk))) Htp)
        as Hinc.
      destruct (update_ai_spec (snd_cwnd (tcp_sk sk)) (ai (inet_csk_ca sk)) Hv)
        as [Hv' _].
      assert (Hiu : is_u32 (update_ai (snd_cwnd (tcp_sk sk)) (ai (inet_csk_ca sk)))).
      { unfold valid_index in Hv'. rewrite HSTCP_AIMD_MAX_eq in Hv'.
        unfold is_u32. rewrite u32_modulus_eq. lia. }
      unfold sock_u32, tcp_sock_u32 in *.
      cbn [tcp_sk inet_csk_ca minrtt artt ai]. tauto.
  - unfold tcp_china_ssthresh, is_u32. u32_facts.
    rewrite u32_modulus_eq in *. lia.
Qed.

Lemma slow_start_keeps_u32_model :
  forall tp a, tcp_sock_u32 tp -> is_u32 a ->
               tcp_sock_u32 (tcp_slow_start_model tp a).
Proof.
  unfold tcp_sock_u32, is_u32, tcp_slow_start_model. intros tp a H Ha.
  cbn [snd_cwnd snd_ssthresh snd_cwnd_cnt snd_cwnd_clamp].
  repeat split; lia.
Qed.

Lemma sock_u32_preserved_witness :
  sock_u32 (tcp_china_cong_avoid (fun _ => true) tcp_slow_start_model
              sk_unset 0 1) /\
  is_u32 (tcp_china_ssthresh sk_unset).
Proof.
  assert (Hsk : sock_u32 sk_unset).
  { unfold sock_u32, is_u32. rewrite u32_modulus_eq. cbn. lia. }
  assert (Hv : valid_index (ai (inet_csk_ca sk_unset)))
    by (vm_compute; split; [discriminate|reflexivity]).
  assert (Ha : is_u32 1) by (vm_compute; split; [discriminate|reflexivity]).
  destruct (sock_u32_preserved (fun _ => true) tcp_slow_start_model
              sk_unset 0 1 1 100 slow_start_keeps_u32_model Hsk Hv Ha)
    as [_ [_ [[Hca _] Hss]]].
  split; assumption.
Defined.

(** ** The growth period *)

(** One window-limited fast-growth call on a state whose index already
    brackets the window. *)
Lemma cong_avoid_fast_step
      (tcp_is_cwnd_limited : sock -> bool)
      (tcp_slow_start : tcp_sock -> Z -> tcp_sock)
      (sk : sock) (ack acked : Z) :
  let tp := tcp_sk sk in
  let i := ai (inet_csk_ca sk) in
  let sk' := tcp_china_cong_avoid tcp_is_cwnd_limited tcp_slow_start
               sk ack acked in
  tcp_is_cwnd_limited sk = true ->
  snd_ssthresh tp < snd_cwnd tp -> snd_cwnd tp < snd_cwnd_clamp tp ->
  snd_cwnd_clamp tp <= MD_CLAMP ->
  0 <= snd_cwnd_cnt tp < snd_cwnd tp ->
  valid_index i -> index_relation (snd_cwnd tp) i ->
  ai (inet_csk_ca sk') = i /\
  snd_ssthresh (tcp_sk sk') = snd_ssthresh tp /\
  snd_cwnd_clamp (tcp_sk sk') = snd_cwnd_clamp tp /\
  (snd_cwnd_cnt tp + (i + 1) < snd_cwnd tp ->
   snd_cwnd (tcp_sk sk') = snd_cwnd tp /\
   snd_cwnd_cnt (tcp_sk sk') = snd_cwnd_cnt tp + (i + 1)) /\
  (snd_cwnd tp <= snd_cwnd_cnt tp + (i + 1) ->
   snd_cwnd (tcp_sk sk') = snd_cwnd tp + 1 /\
   snd_cwnd_cnt (tcp_sk sk') = snd_cwnd_cnt tp + (i + 1) - snd_cwnd tp).
Proof.
  intros tp i sk' Hlim Hfast Hclamp Hmd Hcnt Hv Hrel.
  assert (Hsk' : sk' = {| tcp_sk := additive_increase tp i;
                          inet_csk_ca :=
                            {| minrtt := minrtt (inet_csk_ca sk);
                               artt := artt (inet_csk_ca sk);
                               ai := i |} |}).
  { subst sk'. unfold tcp_china_cong_avoid. rewrite Hlim. cbn [negb].
    fold tp. apply Z.leb_gt in Hfast. rewrite Hfast.
    fold i. rewrite (update_ai_fixed _ _ Hv Hrel). reflexivity. }
  rewrite Hsk'. cbn [inet_csk_ca tcp_sk ai].
  unfold valid_index in Hv. rewrite HSTCP_AIMD_MAX_eq in Hv.
  rewrite MD_CLAMP_eq in Hmd.
  unfold additive_increase.
  pose proof Hclamp as Hlt. apply Z.ltb_lt in Hlt. rewrite Hlt.
  rewrite (u32_small (i + 1)) by (unfold is_u32; rewrite u32_modulus_eq; lia).
  rewrite (u32_small (snd_cwnd_cnt tp + (i + 1)))
    by (unfold is_u32; rewrite u32_modulus_eq; lia).
  destruct (snd_cwnd_cnt tp + (i + 1) >=? snd_cwnd tp) eqn:Hge;
    cbn [snd_cwnd snd_ssthresh snd_cwnd_cnt snd_cwnd_clamp].
  - apply Z.geb_le in Hge.
    rewrite (u32_small (snd_cwnd tp + 1))
      by (unfold is_u32; rewrite u32_modulus_eq; lia).
    rewrite (u32_small (snd_cwnd_cnt tp + (i + 1) - snd_cwnd tp))
      by (unfold is_u32; rewrite u32_modulus_eq; lia).
    repeat split; lia.
  - rewrite Z.geb_leb in Hge. apply Z.leb_gt in Hge.
    repeat split; lia.
Qed.

(** X15: the growth law of fast mode.  On a window-limited connection in
    fast growth whose index brackets its window [w], with the clamp as
    [tcp_china_init] leaves it, each ACK adds [ai + 1] to the counter: as
    long as the counter stays below [w] a run of calls leaves window and
    index alone, and the call that takes the counter to [w] or beyond grows
    the window by exactly one segment and keeps the remainder. *)
Theorem cong_avoid_growth_period :
  forall (tcp_is_cwnd_limited : sock -> bool)
         (tcp_slow_start : tcp_sock -> Z -> tcp_sock)
         (calls : list (Z * Z)) (sk : sock) (ack acked : Z),
    let tp := tcp_sk sk in
    let i := ai (inet_csk_ca sk) in
    let k := Z.of_nat (length calls) in
    let sk' := cong_avoid_run tcp_is_cwnd_limited tcp_slow_start sk calls in
    let sk'' := tcp_china_cong_avoid tcp_is_cwnd_limited tcp_slow_start
                  sk' ack acked in
    (forall s, tcp_is_cwnd_limited s = true) ->
    snd_ssthresh tp < snd_cwnd tp -> snd_cwnd tp < snd_cwnd_clamp tp ->
    snd_cwnd_clamp tp <= MD_CLAMP ->
    0 <= snd_cwnd_cnt tp ->
    valid_index i -> index_relation (snd_cwnd tp) i ->
    snd_cwnd_cnt tp + k * (i + 1) < snd_cwnd tp ->
    (snd_cwnd (tcp_sk sk') = snd_cwnd tp /\
     snd_cwnd_cnt (tcp_sk sk') = snd_cwnd_cnt tp + k * (i + 1) /\
     ai (inet_csk_ca sk') = i) /\
    (snd_cwnd tp <= snd_cwnd_cnt tp + (k + 1) * (i + 1) ->
     snd_cwnd (tcp_sk sk'') = snd_cwnd tp + 1 /\
     snd_cwnd_cnt (tcp_sk sk'')
       = snd_cwnd_cnt tp + (k + 1) * (i + 1) - snd_cwnd tp).
Proof.
  intros limited slow calls sk ack acked tp i k sk' sk''
         Hlim Hfast Hclamp Hmd Hcnt Hv Hrel Hbelow.
  assert (Hrun : forall calls s,
            snd_cwnd (tcp_sk s) = snd_cwnd tp ->
            snd_ssthresh (tcp_sk s) = snd_ssthresh tp ->
            snd_cwnd_clamp (tcp_sk s) = snd_cwnd_clamp tp ->
            ai (inet_csk_ca s) = i ->
            0 <= snd_cwnd_cnt (tcp_sk s) ->
            snd_cwnd_cnt (tcp_sk s) + Z.of_nat (length calls) * (i + 1)
              < snd_cwnd tp ->
            let s' := cong_avoid_run limited slow s calls in
            snd_cwnd (tcp_sk s') = snd_cwnd tp /\
            snd_ssthresh (tcp_sk s') = snd_ssthresh tp /\
            snd_cwnd_clamp (tcp_sk s') = snd_cwnd_clamp tp /\
            ai (inet_csk_ca s') = i /\
            snd_cwnd_cnt (tcp_sk s')
              = snd_cwnd_cnt (tcp_sk s) + Z.of_nat (length calls) * (i + 1)).
  { assert (Hipos : 0 <= i) by (unfold valid_index in Hv; lia).
    induction calls0 as [|c calls0 IH]; intros s Hw Hs Hc Hi Hc0 Hb; cbv zeta.
    - cbn [cong_avoid_run fold_left length Z.of_nat]. repeat split; try assumption. lia.
    - change (cong_avoid_run limited slow s (c :: calls0))
        with (cong_avoid_run limited slow
                (tcp_china_cong_avoid limited slow s (fst c) (snd c)) calls0).
      cbn [length] in Hb |- *. rewrite Nat2Z.inj_succ in Hb |- *.
      assert (Hb1 : snd_cwnd_cnt (tcp_sk s) + (i + 1) < snd_cwnd tp) by nia.
      destruct (cong_avoid_fast_step limited slow s (fst c) (snd c))
        as [Hi' [Hs' [Hc' [Hkeep _]]]];
        rewrite ?Hw, ?Hs, ?Hc, ?Hi; try assumption; try lia; [apply Hlim|].
      rewrite Hi, Hw in Hkeep. destruct (Hkeep Hb1) as [Hw' Hcnt'].
      destruct (IH (tcp_china_cong_avoid limited slow s (fst c) (snd c)))
        as [R1 [R2 [R3 [R4 R5]]]]; try congruence.
      + rewrite Hcnt'. lia.
      + rewrite Hcnt'. nia.
      + repeat split; try assumption. rewrite R5, Hcnt'. lia. }
  destruct (Hrun calls sk) as [R1 [R2 [R3 [R4 R5]]]];
    try reflexivity; try assumption.
  fold sk' in R1, R2, R3, R4, R5. fold k in R5. clear Hrun. subst tp.
  split; [repeat split; assumption|].
  intros Hreach.
  destruct (cong_avoid_fast_step limited slow sk' ack acked)
    as [_ [_ [_ [_ Hgrow]]]];
    rewrite ?R1, ?R2, ?R3, ?R4, ?R5; try assumption; try lia; [apply Hlim| |].
  - assert (0 <= k * (i + 1)) by (unfold valid_index in Hv; nia). lia.
  - fold sk'' in Hgrow. rewrite R1, R4, R5 in Hgrow.
    destruct Hgrow as [G1 G2]; [lia|]. split; [exact G1|]. rewrite G2. lia.
Qed.

Lemma cong_avoid_growth_period_witness :
  snd_cwnd (tcp_sk (cong_avoid_run (fun _ => true) tcp_slow_start_model
                      sk_38 (repeat (0, 1) 37))) = 38 /\
  snd_cwnd (tcp_sk (tcp_china_cong_avoid (fun _ => true) tcp_slow_start_model
                      (cong_avoid_run (fun _ => true) tcp_slow_start_model
                         sk_38 (repeat (0, 1) 37)) 0 1)) = 38 + 1.
Proof.
  destruct (cong_avoid_growth_period (fun _ => true) tcp_slow_start_model
              (repeat (0, 1) 37) sk_38 0 1) as [[Hw _] Hgrow].
  - intros s. reflexivity.
  - vm_compute. reflexivity.
  - vm_compute. reflexivity.
  - vm_compute. discriminate.
  - vm_compute. discriminate.
  - vm_compute. split; [discriminate|reflexivity].
  - apply index_relationb_spec. reflexivity.
  - vm_compute. reflexivity.
  - split; [exact Hw|]. apply Hgrow. vm_compute. discriminate.
Defined.
